(** * ntfy-client: the streaming subscription loop and its history store

    A shallow embedding of [src/App.jsx]: the newline framing of the
    streamed response, the acceptance and de-duplication of decoded
    records, the bounded per-topic history kept in React state and in
    [localStorage], and the most-recently-used list of topics.

    Conventions of the embedding.
    - JavaScript strings are [string]; a character stands for one code
      unit in the range 0..255.
    - Values produced by [JSON.parse] are terms of [JValue]; numbers are
      IEEE binary64 values ([spec_float]).
    - [localStorage] is a finite map from keys to strings.  The browser is
      assumed to provide [localStorage] and [Notification]; quota and
      access errors of the storage are outside the model.
    - [JSON.parse] and [JSON.stringify] are platform functions; they are
      the two fields of the class [Platform], over which the operations
      and the theorems are stated.
    - A React state setter called with an updater function is applied to
      the current state at once, in call order.  An exception raised by an
      updater is not caught by the [try] blocks of [subscribe] (React
      re-raises it while rendering); it is the [Throw] result of the
      functions below. *)

From Stdlib Require Import Ascii ZArith Floats.SpecFloat.
From stdpp Require Import base list strings pretty gmap.

(* ================================================================== *)
(** * Text primitives *)
(* ================================================================== *)

Module Text.

Definition newline : ascii := "010"%char.
Definition slash : ascii := "/"%char.

(** [String.prototype.split] with a one-character separator.  The result
    is never empty: the empty string splits into one empty segment. *)
Definition cons_head (c : ascii) (segs : list string) : list string :=
  match segs with
  | [] => [String c EmptyString]
  | seg :: rest => String c seg :: rest
  end.

Fixpoint split (sep : ascii) (s : string) : list string :=
  match s with
  | EmptyString => [EmptyString]
  | String c s' =>
      if Ascii.eqb c sep then EmptyString :: split sep s'
      else cons_head c (split sep s')
  end.

(** [Array.prototype.pop]: the array without its last element, and that
    element.  On the empty array JavaScript yields [undefined]; [split]
    never returns it, so the default is not observed. *)
Definition pop (l : list string) : list string * string :=
  (List.removelast l, List.last l EmptyString).

(** White space as recognised by [String.prototype.trim], restricted to
    code units below 256: TAB, LF, VT, FF, CR, SPACE and NBSP. *)
Definition is_white_space (c : ascii) : bool :=
  match Ascii.N_of_ascii c with
  | 9 | 10 | 11 | 12 | 13 | 32 | 160 => true
  | _ => false
  end%N.

Fixpoint trim_start (s : string) : string :=
  match s with
  | EmptyString => EmptyString
  | String c s' => if is_white_space c then trim_start s' else s
  end.

Fixpoint trim_end (s : string) : string :=
  match s with
  | EmptyString => EmptyString
  | String c s' =>
      match trim_end s' with
      | EmptyString => if is_white_space c then EmptyString else String c EmptyString
      | t => String c t
      end
  end.

Definition trim (s : string) : string := trim_end (trim_start s).

(** [s.replace(/\/$/, '')]: drop one trailing slash. *)
Fixpoint strip_trailing_slash (s : string) : string :=
  match s with
  | EmptyString => EmptyString
  | String c EmptyString => if Ascii.eqb c slash then EmptyString else s
  | String c s' => String c (strip_trailing_slash s')
  end.

(** JavaScript truthiness of a string. *)
Definition non_empty (s : string) : bool :=
  match s with EmptyString => false | String _ _ => true end.

(** The text carried by a list of chunks. *)
Definition join (chunks : list string) : string :=
  fold_right String.append EmptyString chunks.

End Text.

(* ================================================================== *)
(** * Line framing (App.jsx, lines 154 and 166-168) *)
(* ================================================================== *)

Module Framing.
Import Text.

(** One turn of the read loop on the text side:
    [buffer += chunk; lines = buffer.split('\n'); buffer = lines.pop()]. *)
Definition feed (buffer chunk : string) : list string * string :=
  pop (split newline (buffer +:+ chunk)).

(** The complete lines handed to the record loop over a run of chunks,
    and the buffer left at the end. *)
Fixpoint frame (buffer : string) (chunks : list string) : list string * string :=
  match chunks with
  | [] => ([], buffer)
  | chunk :: rest =>
      let '(lines, buffer') := feed buffer chunk in
      let '(more, final) := frame buffer' rest in
      (lines ++ more, final)
  end.

End Framing.

(* ================================================================== *)
(** * JavaScript values and exceptions *)
(* ================================================================== *)

Module Js.

(** Values that [JSON.parse] can build, and [undefined], the result of
    reading a property that is not there. *)
#[warnings="-register-all"]
Inductive JValue : Type :=
| JUndefined
| JNull
| JBool (b : bool)
| JNumber (n : spec_float)
| JString (s : string)
| JArray (items : list JValue)
| JObject (fields : list (string * JValue)).

Record exn : Type := Exn { exn_name : string; exn_message : string }.

Definition type_error (msg : string) : exn := Exn "TypeError" msg.
Definition syntax_error (msg : string) : exn := Exn "SyntaxError" msg.
Definition abort_error : exn := Exn "AbortError" "The user aborted a request.".
Definition plain_error (msg : string) : exn := Exn "Error" msg.

(** A computation that returns or throws. *)
Inductive result (A : Type) : Type :=
| Ok (a : A)
| Throw (e : exn).
Arguments Ok {A} a.
Arguments Throw {A} e.

#[export] Instance result_ret : MRet result := fun A a => Ok a.
#[export] Instance result_bind : MBind result := fun A B f m =>
  match m with
  | Ok a => f a
  | Throw e => Throw e
  end.

(** [try { body } catch (e) { handler }] *)
Definition try_catch {A : Type} (body : result A) (handler : exn -> A) : A :=
  match body with
  | Ok a => a
  | Throw e => handler e
  end.

(** ToBoolean. *)
Definition to_boolean (v : JValue) : bool :=
  match v with
  | JUndefined | JNull => false
  | JBool b => b
  | JNumber (S754_zero _) | JNumber S754_nan => false
  | JNumber _ => true
  | JString s => Text.non_empty s
  | JArray _ | JObject _ => true
  end.

(** [a === b] for two values that come from different calls of
    [JSON.parse] (or from a literal): primitives are compared by value,
    and two arrays or objects are never the same reference.  Every
    comparison in the component is of this kind: a stored entry against a
    freshly parsed record, or against a string. *)
Definition strict_equals (a b : JValue) : bool :=
  match a, b with
  | JUndefined, JUndefined => true
  | JNull, JNull => true
  | JBool x, JBool y => Bool.eqb x y
  | JNumber x, JNumber y => SFeqb x y
  | JString x, JString y => String.eqb x y
  | _, _ => false
  end.

(** Own data property of an object built by [JSON.parse]. *)
Fixpoint lookup_field (k : string) (fields : list (string * JValue)) : JValue :=
  match fields with
  | [] => JUndefined
  | (k', v) :: rest => if String.eqb k k' then v else lookup_field k rest
  end.

(** [v.k] for the property names the component reads ([id], [message],
    [title]): reading from [null] or [undefined] throws a TypeError,
    primitives and arrays have no such property. *)
Definition get_prop (v : JValue) (k : string) : result JValue :=
  match v with
  | JUndefined | JNull => Throw (type_error "Cannot read properties of null")
  | JObject fields => Ok (lookup_field k fields)
  | _ => Ok JUndefined
  end.

(** [Array.prototype.some] with a callback that may throw: elements are
    visited in order until the callback answers true. *)
Fixpoint array_some (p : JValue -> result bool) (items : list JValue) : result bool :=
  match items with
  | [] => Ok false
  | x :: rest =>
      match p x with
      | Throw e => Throw e
      | Ok true => Ok true
      | Ok false => array_some p rest
      end
  end.

(** The platform's JSON codec.  [JSON_parse] answers [None] where
    [JSON.parse] throws a SyntaxError. *)
Class Platform : Type := {
  JSON_parse : string -> option JValue;
  JSON_stringify : JValue -> string
}.

Definition parse `{Platform} (text : string) : result JValue :=
  match JSON_parse text with
  | Some v => Ok v
  | None => Throw (syntax_error "Unexpected token")
  end.

End Js.

(* ================================================================== *)
(** * The component state *)
(* ================================================================== *)

Module App.
Import Text Framing Js.

Inductive LogEntry : Type :=
| LogInfo (text : string)
| LogError (text : string) (detail : string).

Record DesktopNotification : Type := Notify {
  notification_title : JValue;
  notification_body : JValue
}.

(** React state of [App], the browser storage, and a trace of what the
    component did to the outside: console output, desktop notifications,
    requests issued, abort controllers created and aborted. *)
Record AppState : Type := mkApp {
  messages : JValue;
  connected : bool;
  errorInfo : option string;
  previousTopics : JValue;
  localStorage : gmap string string;
  permission : string;
  console : list LogEntry;
  notifications : list DesktopNotification;
  requests : list string;
  controllers : nat;
  abortControllerRef : option nat;
  aborted : list nat
}.

Definition set_messages (v : JValue) (st : AppState) : AppState :=
  mkApp v (connected st) (errorInfo st) (previousTopics st) (localStorage st)
        (permission st) (console st) (notifications st) (requests st)
        (controllers st) (abortControllerRef st) (aborted st).

Definition set_connected (b : bool) (st : AppState) : AppState :=
  mkApp (messages st) b (errorInfo st) (previousTopics st) (localStorage st)
        (permission st) (console st) (notifications st) (requests st)
        (controllers st) (abortControllerRef st) (aborted st).

Definition set_errorInfo (e : option string) (st : AppState) : AppState :=
  mkApp (messages st) (connected st) e (previousTopics st) (localStorage st)
        (permission st) (console st) (notifications st) (requests st)
        (controllers st) (abortControllerRef st) (aborted st).

Definition set_previousTopics (v : JValue) (st : AppState) : AppState :=
  mkApp (messages st) (connected st) (errorInfo st) v (localStorage st)
        (permission st) (console st) (notifications st) (requests st)
        (controllers st) (abortControllerRef st) (aborted st).

Definition set_localStorage (m : gmap string string) (st : AppState) : AppState :=
  mkApp (messages st) (connected st) (errorInfo st) (previousTopics st) m
        (permission st) (console st) (notifications st) (requests st)
        (controllers st) (abortControllerRef st) (aborted st).

Definition log (entry : LogEntry) (st : AppState) : AppState :=
  mkApp (messages st) (connected st) (errorInfo st) (previousTopics st)
        (localStorage st) (permission st) (console st ++ [entry])
        (notifications st) (requests st)
        (controllers st) (abortControllerRef st) (aborted st).

Definition notify (n : DesktopNotification) (st : AppState) : AppState :=
  mkApp (messages st) (connected st) (errorInfo st) (previousTopics st)
        (localStorage st) (permission st) (console st)
        (notifications st ++ [n]) (requests st)
        (controllers st) (abortControllerRef st) (aborted st).

(** [fetch(url, ...)] was called. *)
Definition request (url : string) (st : AppState) : AppState :=
  mkApp (messages st) (connected st) (errorInfo st) (previousTopics st)
        (localStorage st) (permission st) (console st) (notifications st)
        (requests st ++ [url])
        (controllers st) (abortControllerRef st) (aborted st).

(** [abortControllerRef.current.abort()] when the reference is set. *)
Definition abort_current (st : AppState) : AppState :=
  match abortControllerRef st with
  | Some c =>
      mkApp (messages st) (connected st) (errorInfo st) (previousTopics st)
            (localStorage st) (permission st) (console st) (notifications st)
            (requests st) (controllers st) (abortControllerRef st)
            (c :: aborted st)
  | None => st
  end.

(** [abortControllerRef.current = new AbortController()] *)
Definition new_controller (st : AppState) : AppState :=
  mkApp (messages st) (connected st) (errorInfo st) (previousTopics st)
        (localStorage st) (permission st) (console st) (notifications st)
        (requests st) (S (controllers st)) (Some (controllers st)) (aborted st).

Definition setItem (key value : string) (st : AppState) : AppState :=
  set_localStorage (<[key := value]> (localStorage st)) st.

Definition removeItem (key : string) (st : AppState) : AppState :=
  set_localStorage (delete key (localStorage st)) st.

Definition getItem (key : string) (st : AppState) : option string :=
  localStorage st !! key.

Definition history_key (topic : string) : string := "ntfy-history-" +:+ topic.
Definition latest_topic_key : string := "ntfy-latest-topic".
Definition previous_topics_key : string := "ntfy-previous-topics".


(* ------------------------------------------------------------------ *)
(** ** Component initialisers and the history store *)
(* ------------------------------------------------------------------ *)

Section Operations.
Context `{Platform}.

(** Initial value of [topic] (lines 63-71). *)
Definition initial_topic (store : gmap string string) : string :=
  match store !! latest_topic_key with
  | Some storedTopic => if non_empty storedTopic then storedTopic else "your-topic-here"
  | None => "your-topic-here"
  end.

(** Initial value of [previousTopics] (lines 80-88): the body of the
    [try], then the whole initialiser with its [catch]. *)
Definition read_previousTopics (store : gmap string string) : result JValue :=
  match store !! previous_topics_key with
  | Some storedTopics =>
      if non_empty storedTopics then parse storedTopics else Ok (JArray [])
  | None => Ok (JArray [])
  end.

Definition initial_previousTopics (store : gmap string string) : JValue * list LogEntry :=
  try_catch
    (v ← read_previousTopics store; mret (v, []))
    (fun error =>
       (JArray [],
        [LogError "Failed to load previous topics from localStorage" (exn_name error)])).

(** The state of a freshly mounted component over a given storage. *)
Definition mount (store : gmap string string) (perm : string) : AppState :=
  let '(topics, logged) := initial_previousTopics store in
  mkApp (JArray []) false None topics store perm logged [] [] 0 None [].

(** Loading the history of [topic] (lines 123-130): the body of the
    [try], yielding the argument of [setMessages], then the statement
    with its [catch]. *)
Definition read_history (topic : string) (st : AppState) : result JValue :=
  match getItem (history_key topic) st with
  | Some savedMessages =>
      if non_empty savedMessages then parse savedMessages else Ok (JArray [])
  | None => Ok (JArray [])
  end.

Definition load_history (topic : string) (st : AppState) : AppState :=
  try_catch
    (v ← read_history topic st; mret (set_messages v st))
    (fun error =>
       set_messages (JArray [])
         (log (LogError ("Failed to load history for topic " +:+ topic +:+ " from localStorage")
                        (exn_name error)) st)).

(** The updater passed to [setMessages] for an accepted record
    (lines 176-194), with its writes to storage and to the desktop. *)
Definition same_id (parsedData msg : JValue) : result bool :=
  a ← get_prop msg "id";
  b ← get_prop parsedData "id";
  mret (strict_equals a b).

Definition show_notification (topic : string) (parsedData : JValue) (st : AppState)
  : result AppState :=
  if String.eqb (permission st) "granted" then
    body ← get_prop parsedData "message";
    if to_boolean body then
      title ← get_prop parsedData "title";
      let notificationTitle :=
        if to_boolean title then title
        else JString ("New message on topic: " +:+ topic) in
      mret (notify (Notify notificationTitle body) st)
    else mret st
  else mret st.

Definition add_message (topic : string) (parsedData : JValue) (st : AppState)
  : result AppState :=
  match messages st with
  | JArray prevMessages =>
      duplicate ← array_some (same_id parsedData) prevMessages;
      if (duplicate : bool) then mret st
      else
        let newMessages := JArray (take 50 (parsedData :: prevMessages)) in
        let st1 := setItem (history_key topic) (JSON_stringify newMessages) st in
        st2 ← show_notification topic parsedData st1;
        mret (set_messages newMessages st2)
  | _ => Throw (type_error "prevMessages.some is not a function")
  end.

(** The body of the inner [try] up to the call of [setMessages]
    (lines 173-174): the record to hand over, if any. *)
Definition decode_line (line : string) : result (option JValue) :=
  parsedData ← parse line;
  id ← get_prop parsedData "id";
  if to_boolean id then
    message ← get_prop parsedData "message";
    mret (if to_boolean message then Some parsedData else None)
  else mret None.

(** One iteration of [for (const line of lines)] (lines 170-201). *)
Definition process_line (topic line : string) (st : AppState) : result AppState :=
  if String.eqb (trim line) "" then Ok st
  else
    match decode_line line with
    | Ok (Some parsedData) => add_message topic parsedData st
    | Ok None => Ok st
    | Throw e =>
        Ok (log (LogError "Failed to parse message JSON from stream:" line) st)
    end.

Fixpoint process_lines (topic : string) (lines : list string) (st : AppState)
  : result AppState :=
  match lines with
  | [] => Ok st
  | line :: rest => st' ← process_line topic line st; process_lines topic rest st'
  end.

(* ------------------------------------------------------------------ *)
(** ** The read loop and [subscribe] *)
(* ------------------------------------------------------------------ *)

(** What one [await reader.read()] delivers.  [ReadDone] carries the value
    of [controller.signal.aborted] at that moment; chunks are given as the
    text the streaming decoder makes of them. *)
Inductive ReadResult : Type :=
| ReadChunk (text : string)
| ReadDone (signal_aborted : bool)
| ReadRejects (error : exn).

(** How the [while (true)] loop (lines 156-202) stands after a run of
    reads: suspended at the next [await], left by [break], left by an
    exception on its way to the [catch] of [subscribe], or stopped by an
    updater that threw. *)
Inductive LoopExit : Type :=
| Awaiting (buffer : string) (st : AppState)
| Break (st : AppState)
| Raised (error : exn) (st : AppState)
| RenderError (error : exn).

Fixpoint read_loop (topic : string) (reads : list ReadResult)
                   (buffer : string) (st : AppState) : LoopExit :=
  match reads with
  | [] => Awaiting buffer st
  | ReadDone signal_aborted :: _ =>
      if signal_aborted then Break st
      else Break (set_errorInfo (Some "Connection closed.") (set_connected false st))
  | ReadRejects error :: _ => Raised error st
  | ReadChunk text :: rest =>
      let '(lines, buffer') := feed buffer text in
      match process_lines topic lines st with
      | Ok st' => read_loop topic rest buffer' st'
      | Throw e => RenderError e
      end
  end.

(** The [catch] of [subscribe] (lines 203-209). *)
Definition on_error (fetchUrl : string) (error : exn) (st : AppState) : AppState :=
  if negb (String.eqb (exn_name error) "AbortError") then
    set_errorInfo (Some "Connection failed. Check console.")
      (set_connected false
         (log (LogError ("Subscription failed for URL: " +:+ fetchUrl +:+ ".")
                        (exn_name error)) st))
  else st.

(** What [await fetch(...)] delivers. *)
Inductive FetchResult : Type :=
| FetchRejects (error : exn)
| FetchResponse (ok : bool) (status : string) (body : list ReadResult).

(** Where a call of [subscribe] stands once its inputs are used up. *)
Inductive Outcome : Type :=
| Streaming (buffer : string) (st : AppState)
| Returned (st : AppState)
| Crashed (error : exn).

(** The [try] around the read loop, from the open response on
    (lines 148-209). *)
Definition stream (topic fetchUrl : string) (body : list ReadResult) (st : AppState)
  : Outcome :=
  let st1 := set_errorInfo None (set_connected true st) in
  let st2 := log (LogInfo ("Subscribed to " +:+ fetchUrl +:+ " using fetch streaming.")) st1 in
  match read_loop topic body "" st2 with
  | Awaiting buffer st' => Streaming buffer st'
  | Break st' => Returned st'
  | Raised error st' => Returned (on_error fetchUrl error st')
  | RenderError error => Crashed error
  end.

Definition fetch_url (server topic : string) : string :=
  strip_trailing_slash server +:+ "/" +:+ topic +:+ "/json".

(** [subscribe] (lines 112-210). *)
Definition subscribe (server topic : string) (net : FetchResult) (st : AppState)
  : Outcome :=
  let st0 := abort_current st in
  if negb (non_empty (trim topic)) then
    Returned (set_errorInfo (Some "Topic cannot be empty.") (set_connected false st0))
  else
    let st1 := load_history topic st0 in
    let fetchUrl := fetch_url server topic in
    let st2 := request fetchUrl (new_controller st1) in
    match net with
    | FetchRejects error => Returned (on_error fetchUrl error st2)
    | FetchResponse false status _ =>
        Returned (on_error fetchUrl (plain_error ("Connection failed: " +:+ status)) st2)
    | FetchResponse true _ body => stream topic fetchUrl body st2
    end.

(* ------------------------------------------------------------------ *)
(** ** Recent topics and clearing *)
(* ------------------------------------------------------------------ *)

(** The updater passed to [setPreviousTopics] (lines 229-233), for the
    trimmed topic [used]. *)
Definition move_to_front (used : string) (st : AppState) : result AppState :=
  match previousTopics st with
  | JArray prevTopics =>
      let newTopics :=
        JArray (take 10 (JString used ::
                  filter (fun t => strict_equals t (JString used) = false) prevTopics)) in
      mret (set_previousTopics newTopics
              (setItem previous_topics_key (JSON_stringify newTopics) st))
  | _ => Throw (type_error "prevTopics.filter is not a function")
  end.

(** The effect that records the use of a topic (lines 223-235). *)
Definition recordTopicUse (topic : string) (st : AppState) : result AppState :=
  if non_empty (trim topic) then
    move_to_front (trim topic) (setItem latest_topic_key (trim topic) st)
  else Ok st.

(** [handleClearMessages] (lines 347-350). *)
Definition handleClearMessages (topic : string) (st : AppState) : AppState :=
  removeItem (history_key topic) (set_messages (JArray []) st).

End Operations.

End App.

(* ================================================================== *)
(** * Vocabulary of the properties *)
(* ================================================================== *)

Module Spec.
Import Text Framing Js App.

(** The identifier and the body a value carries; [undefined] where there
    is none to read. *)
Definition record_id (v : JValue) : JValue :=
  try_catch (get_prop v "id") (fun _ => JUndefined).

Definition record_message (v : JValue) : JValue :=
  try_catch (get_prop v "message") (fun _ => JUndefined).

(** A valid record carries both an identifier and a message body. *)
Definition valid_record (v : JValue) : bool :=
  to_boolean (record_id v) && to_boolean (record_message v).

(** Entries whose properties can be read: everything but [null] and
    [undefined]. *)
Definition readable (v : JValue) : bool :=
  match v with
  | JUndefined | JNull => false
  | _ => true
  end.

(** [older] and [newer] do not have the same identifier, in the sense of
    the comparison [older.id === newer.id] the component makes. *)
Definition differ (older newer : JValue) : Prop :=
  strict_equals (record_id older) (record_id newer) = false.

(** Pairwise distinct identifiers, for records listed in the order of
    their arrival and for a history (most recent first). *)
Definition distinct_ids (records : list JValue) : Prop :=
  List.ForallOrdPairs differ records.



(** The value carries an own property named [k]. *)
Definition has_field (k : string) (v : JValue) : bool :=
  match v with
  | JObject fields => existsb (fun kv => String.eqb k (fst kv)) fields
  | _ => false
  end.

(** A line of the stream that is not blank and that [JSON.parse] turns
    into [r]. *)
Definition decodes_to `{Platform} (line : string) (r : JValue) : Prop :=
  String.eqb (trim line) "" = false /\ JSON_parse line = Some r.

(** A line holds no newline, and the text of a stream that carries the
    given lines, each closed by a newline. *)
Definition single_line (line : string) : Prop := split newline line = [line].

Definition stream_text (lines : list string) : string :=
  join (map (fun line => line +:+ String newline "") lines).

(** [s.includes(c)], and a text in which no newline occurs. *)
Fixpoint mentions (c : ascii) (s : string) : bool :=
  match s with
  | EmptyString => false
  | String x s' => Ascii.eqb x c || mentions c s'
  end.

Definition unbroken (s : string) : bool := negb (mentions newline s).

(** What the console receives for a line that cannot be decoded. *)
Definition parse_failure (line : string) : LogEntry :=
  LogError "Failed to parse message JSON from stream:" line.

(** Valid records handed to the updater one after the other. *)
Fixpoint deliver `{Platform} (topic : string) (records : list JValue) (st : AppState)
  : result AppState :=
  match records with
  | [] => Ok st
  | r :: rest => st' ← add_message topic r st; deliver topic rest st'
  end.

(** The topics used one after the other, each recorded by the effect. *)
Fixpoint record_uses `{Platform} (topics : list string) (st : AppState)
  : result AppState :=
  match topics with
  | [] => Ok st
  | topic :: rest => st' ← recordTopicUse topic st; record_uses rest st'
  end.

(** The updater of the list of recent topics on the array itself. *)
Definition recent_step (used : string) (prevTopics : list JValue) : list JValue :=
  take 10 (JString used ::
           filter (fun t => strict_equals t (JString used) = false) prevTopics).

End Spec.

(* ================================================================== *)
(** * A sample platform and a sample stream *)
(* ================================================================== *)

Module Sample.
Import Text Js App.

Definition dq : string := String (Ascii.ascii_of_nat 34) "".

Definition quoted (s : string) : string := dq +:+ s +:+ dq.

Fixpoint commas (parts : list string) : string :=
  match parts with
  | [] => ""
  | [p] => p
  | p :: rest => p +:+ "," +:+ commas rest
  end.

(** Integral numbers in decimal; anything else as [null]. *)
Definition number_text (n : spec_float) : string :=
  match n with
  | S754_zero _ => "0"
  | S754_finite sign m e =>
      let magnitude :=
        if (0 <=? e)%Z then Some (Z.pos m * 2 ^ e)%Z
        else if (Z.pos m mod 2 ^ (- e) =? 0)%Z then Some (Z.pos m / 2 ^ (- e))%Z
        else None in
      match magnitude with
      | Some z => (if sign then "-" else "") +:+ pretty z
      | None => "null"
      end
  | _ => "null"
  end.

(** A serialiser in the manner of [JSON.stringify], without escapes. *)
Fixpoint stringify (v : JValue) : string :=
  match v with
  | JUndefined | JNull => "null"
  | JBool b => if b then "true" else "false"
  | JNumber n => number_text n
  | JString s => quoted s
  | JArray items => "[" +:+ commas (List.map stringify items) +:+ "]"
  | JObject fields =>
      "{" +:+ commas (List.map (fun kv => quoted (fst kv) +:+ ":" +:+ stringify (snd kv)) fields)
          +:+ "}"
  end.

Definition event (id message : string) : JValue :=
  JObject [("id", JString id); ("message", JString message)].


(** 1700000000 as a binary64 number. *)
Definition time_1700000000 : spec_float := S754_finite false 7130316800000000 (-22).

Definition timed_event : JValue :=
  JObject [("id", JString "1"); ("time", JNumber time_1700000000); ("message", JString "hi")].

(** A stored history in which one identifier occurs twice. *)
Definition twice : JValue := JArray [event "1" "hi"; event "1" "hi"].

(** The texts the sample reader decodes, with their values. *)
Definition known_lines : list (string * JValue) :=
  [ (stringify timed_event, timed_event);
    (stringify twice, twice);
    (stringify (event "1" "hi"), event "1" "hi");
    (stringify (event "2" "ho"), event "2" "ho");
    (stringify (event "3" "hey"), event "3" "hey");
    (stringify (JObject [("id", JString "4")]), JObject [("id", JString "4")]);
    (stringify (JObject [("message", JString "anonymous")]),
       JObject [("message", JString "anonymous")]);
    ("null", JNull);
    ("[]", JArray []) ].

Fixpoint find_line (text : string) (table : list (string * JValue)) : option JValue :=
  match table with
  | [] => None
  | (t, v) :: rest => if String.eqb text t then Some v else find_line text rest
  end.

(** A reader that decodes the lines of the sample stream and rejects
    every other text. *)
Definition sample_platform : Platform :=
  {| JSON_parse := fun text => find_line text known_lines;
     JSON_stringify := stringify |}.

Definition empty_app : AppState :=
  mkApp (JArray []) false None (JArray []) ∅ "default" [] [] [] 0 None [].

(** A component with an empty history over a storage whose entry for the
    topic "alerts" is the history [twice]. *)
Definition app_over_twice : AppState :=
  set_localStorage {[ history_key "alerts" := stringify twice ]} empty_app.

End Sample.

(* ================================================================== *)
(** * Clickable links in a message (App.jsx, lines 23-50) *)
(* ================================================================== *)

Module Links.
Import Text.

(** The text after a literal prefix, if the text starts with it. *)
Fixpoint strip_prefix (prefix s : string) : option string :=
  match prefix with
  | EmptyString => Some s
  | String a prefix' =>
      match s with
      | EmptyString => None
      | String b s' => if Ascii.eqb a b then strip_prefix prefix' s' else None
      end
  end.

Definition starts_with (prefix s : string) : bool :=
  match strip_prefix prefix s with Some _ => true | None => false end.

(** The longest run of characters other than white space at the start of
    the text (the greedy [[^\s]]-run of the pattern), and what follows. *)
Fixpoint span_visible (s : string) : string * string :=
  match s with
  | EmptyString => (EmptyString, EmptyString)
  | String c s' =>
      if is_white_space c then (EmptyString, s)
      else let '(run, rest) := span_visible s' in (String c run, rest)
  end.

(** One alternative of the pattern at the start of the text: a literal
    prefix followed by at least one visible character. *)
Definition match_alternative (prefix s : string) : option (string * string) :=
  match strip_prefix prefix s with
  | Some after =>
      match span_visible after with
      | (EmptyString, _) => None
      | (run, rest) => Some (prefix +:+ run, rest)
      end
  | None => None
  end.

(** [/(https?:\/\/[^\s]+|www\.[^\s]+)/] tried at the start of the text:
    the match and the text after it. *)
Definition match_url (s : string) : option (string * string) :=
  match match_alternative "https://" s with
  | Some m => Some m
  | None =>
      match match_alternative "http://" s with
      | Some m => Some m
      | None => match_alternative "www." s
      end
  end.

(** [part.match(urlRegex)] is not null: the pattern matches somewhere. *)
Fixpoint has_url (s : string) : bool :=
  match s with
  | EmptyString => false
  | String _ s' =>
      match match_url s with
      | Some _ => true
      | None => has_url s'
      end
  end.

(** [text.split(urlRegex)]: the pieces of text between the matches, with
    each match (the capture of the pattern) in between.  [fuel] bounds the
    positions still to be tried and [pending] is the piece being read. *)
Fixpoint split_from (fuel : nat) (s pending : string) : list string :=
  match fuel with
  | 0 => [pending +:+ s]
  | S fuel' =>
      match s with
      | EmptyString => [pending]
      | String c s' =>
          match match_url s with
          | Some (url, rest) => pending :: url :: split_from fuel' rest EmptyString
          | None => split_from fuel' s' (pending +:+ String c EmptyString)
          end
      end
  end.

Definition split_urls (text : string) : list string :=
  split_from (String.length text) text EmptyString.

(** What the component renders for one part: the text itself, or an
    anchor with its target and its label. *)
Inductive Rendered : Type :=
| Plain (text : string)
| Anchor (href label : string).

Definition render_part (part : string) : Rendered :=
  if non_empty part && has_url part then
    Anchor (if starts_with "www." part then "https://" +:+ part else part) part
  else Plain part.

Definition ClickableMessage (text : string) : list Rendered :=
  map render_part (split_urls text).

(** The characters a rendered part shows. *)
Definition shown (r : Rendered) : string :=
  match r with
  | Plain text => text
  | Anchor _ label => label
  end.

(** No character of the text is white space. *)
Fixpoint all_visible (s : string) : bool :=
  match s with
  | EmptyString => true
  | String c s' => negb (is_white_space c) && all_visible s'
  end.

(** The whole text is one match of the pattern. *)
Definition is_url (s : string) : Prop := match_url s = Some (s, EmptyString).

(** Parts that are, in turn, a text in which the pattern does not match
    and a match of the pattern, beginning and ending with a text. *)
Inductive alternating : list string -> Prop :=
| alternating_last (text : string) :
    has_url text = false -> alternating [text]
| alternating_link (text url : string) (rest : list string) :
    has_url text = false -> is_url url -> alternating rest ->
    alternating (text :: url :: rest).

End Links.

(* ================================================================== *)
(** * The handlers of the form (App.jsx, lines 237-350) *)
(* ================================================================== *)

Module Form.
Import Text Js App.

(** The React state of the form that [AppState] does not hold.
    [newMessage] and [summary] receive the text of a reply of the
    generative service, which may be any value of the decoded reply. *)
Record Draft : Type := mkDraft {
  newTitle : string;
  newMessage : JValue;
  isGenerating : bool;
  summary : JValue;
  isSummaryModalOpen : bool
}.

Definition set_newTitle (s : string) (d : Draft) : Draft :=
  mkDraft s (newMessage d) (isGenerating d) (summary d) (isSummaryModalOpen d).

Definition set_newMessage (v : JValue) (d : Draft) : Draft :=
  mkDraft (newTitle d) v (isGenerating d) (summary d) (isSummaryModalOpen d).

Definition set_isGenerating (b : bool) (d : Draft) : Draft :=
  mkDraft (newTitle d) (newMessage d) b (summary d) (isSummaryModalOpen d).

Definition set_summary (v : JValue) (d : Draft) : Draft :=
  mkDraft (newTitle d) (newMessage d) (isGenerating d) v (isSummaryModalOpen d).

Definition set_isSummaryModalOpen (b : bool) (d : Draft) : Draft :=
  mkDraft (newTitle d) (newMessage d) (isGenerating d) (summary d) b.

(** A request sent with [fetch(url, { method: 'POST', ... })]. *)
Record Post : Type := mkPost {
  post_url : string;
  post_body : string;
  post_headers : list (string * string)
}.

(** Where a handler stands when it is over: the two states, the requests
    it sent, and the exception it let escape, if any. *)
Record Handled : Type := mkHandled {
  after_app : AppState;
  after_draft : Draft;
  sent : list Post;
  uncaught : option exn
}.

(** The receiver of [v.trim()]: the method exists on strings only, and
    the call throws a TypeError on any other value. *)
Definition trim_receiver (v : JValue) : result string :=
  match v with
  | JString s => Ok s
  | JUndefined | JNull => Throw (type_error "Cannot read properties of null")
  | _ => Throw (type_error "trim is not a function")
  end.

(** What [await fetch(...)] delivers to a handler that does not read the
    stream of the reply: a reply with [response.ok] as given and, for the
    handlers that call [response.json()], the decoded body ([None] where
    decoding fails), or a rejection. *)
Inductive Reply : Type :=
| Replies (ok : bool) (json : option JValue)
| Rejects (error : exn).

Definition publish_url (server topic : string) : string :=
  strip_trailing_slash server +:+ "/" +:+ topic.

(** [sendMessage] (lines 252-271). *)
Definition sendMessage (server topic : string) (net : Reply)
    (st : AppState) (d : Draft) : Handled :=
  match trim_receiver (newMessage d) with
  | Throw e => mkHandled st d [] (Some e)
  | Ok text =>
      if negb (non_empty (trim text)) || negb (non_empty (trim topic)) then
        mkHandled st d [] None
      else
        let headers :=
          [("Priority", "default"); ("Tags", "rocket")] ++
          (if non_empty (trim (newTitle d)) then [("Title", trim (newTitle d))] else []) in
        let post := mkPost (publish_url server topic) text headers in
        match net with
        | Replies _ _ =>
            mkHandled st (set_newTitle "" (set_newMessage (JString "") d)) [post] None
        | Rejects error =>
            mkHandled (log (LogError "Failed to send message:" (exn_name error)) st)
                      d [post] None
        end
  end.

(** [v?.k] and [v?.[0]]: [undefined] where there is nothing to read. *)
Definition chain_prop (v : JValue) (k : string) : JValue :=
  match v with
  | JObject fields => lookup_field k fields
  | _ => JUndefined
  end.

Definition chain_first (v : JValue) : JValue :=
  match v with
  | JArray (x :: _) => x
  | JObject fields => lookup_field "0" fields
  | JString (String c _) => JString (String c EmptyString)
  | _ => JUndefined
  end.

(** [result.candidates?.[0]?.content?.parts?.[0]?.text] *)
Definition candidate_text (reply : JValue) : result JValue :=
  candidates ← get_prop reply "candidates";
  mret (chain_prop
          (chain_first (chain_prop (chain_prop (chain_first candidates) "content") "parts"))
          "text").

(** The body of the [try] of both handlers of the generative service
    (lines 289-300 and 323-335): the text of the first candidate. *)
Definition first_candidate (net : Reply) : result JValue :=
  match net with
  | Rejects error => Throw error
  | Replies _ None => Throw (syntax_error "Unexpected token")
  | Replies _ (Some reply) =>
      text ← candidate_text reply;
      if to_boolean text then Ok text
      else Throw (plain_error "Invalid response structure from Gemini API.")
  end.

Definition api_url : string :=
  "https://generativelanguage.googleapis.com/v1beta/models/gemini-2.0-flash:generateContent?key=".

Definition quote_mark : string := String (Ascii.ascii_of_nat 34) EmptyString.

(** [{ contents: [{ role: "user", parts: [{ text: prompt }] }] }] *)
Definition payload (prompt : string) : JValue :=
  JObject [("contents",
            JArray [JObject [("role", JString "user");
                             ("parts", JArray [JObject [("text", JString prompt)]])]])].

(** The request to the generative service for a prompt. *)
Definition ask `{Platform} (prompt : string) : Post :=
  mkPost api_url (JSON_stringify (payload prompt)) [("Content-Type", "application/json")].

Definition generate_prompt (draft : string) : string :=
  "Based on the following prompt, write a concise and friendly notification message suitable for the ntfy.sh service. The message should be a single paragraph. Prompt: "
  +:+ quote_mark +:+ draft +:+ quote_mark.

(** [handleGenerateMessage] (lines 276-307). *)
Definition handleGenerateMessage `{Platform} (net : Reply) (st : AppState) (d : Draft)
  : Handled :=
  match trim_receiver (newMessage d) with
  | Throw e => mkHandled st d [] (Some e)
  | Ok text =>
      if negb (non_empty (trim text)) then
        mkHandled (set_errorInfo (Some "Please enter a prompt to generate a message.") st)
                  d [] None
      else
        let d1 := set_isGenerating true d in
        let st1 := set_errorInfo None st in
        let '(st2, d2) :=
          match first_candidate net with
          | Ok generated => (st1, set_newMessage generated d1)
          | Throw error =>
              (set_errorInfo (Some "Failed to generate message. Check console.")
                 (log (LogError "Gemini API call failed:" (exn_name error)) st1), d1)
          end in
        mkHandled st2 (set_isGenerating false d2) [ask (generate_prompt text)] None
  end.

Section Summary.
Context `{Platform}.
(** [Number.prototype.toString], a platform function. *)
Variable number_text : spec_float -> string.

(** [parts.join(sep)] on strings. *)
Definition join_with (sep : string) (parts : list string) : string :=
  match parts with
  | [] => EmptyString
  | p :: rest => fold_left (fun acc q => acc +:+ sep +:+ q) rest p
  end.

(** ToString, as applied by a template literal. *)
Fixpoint to_string (v : JValue) : string :=
  match v with
  | JUndefined => "undefined"
  | JNull => "null"
  | JBool b => if b then "true" else "false"
  | JNumber n => number_text n
  | JString s => s
  | JArray items =>
      join_with ","
        (List.map (fun x => match x with
                            | JUndefined | JNull => EmptyString
                            | _ => to_string x
                            end) items)
  | JObject _ => "[object Object]"
  end.

(** [v.length === 0] *)
Definition length_is_zero (v : JValue) : result bool :=
  match v with
  | JUndefined | JNull => Throw (type_error "Cannot read properties of null")
  | JArray items => Ok (match items with [] => true | _ => false end)
  | JString s => Ok (negb (non_empty s))
  | JObject fields =>
      Ok (strict_equals (lookup_field "length" fields) (JNumber (S754_zero false)))
  | _ => Ok false
  end.

(** [messages.map(msg => `- ${msg.message}`)], element by element. *)
Fixpoint bullet_lines (items : list JValue) : result (list string) :=
  match items with
  | [] => Ok []
  | msg :: rest =>
      body ← get_prop msg "message";
      more ← bullet_lines rest;
      mret (("- " +:+ to_string body) :: more)
  end.

Definition messages_text (v : JValue) : result string :=
  match v with
  | JArray items => lines ← bullet_lines items; mret (join_with (String newline "") lines)
  | JUndefined | JNull => Throw (type_error "Cannot read properties of null")
  | _ => Throw (type_error "messages.map is not a function")
  end.

Definition summary_prompt (messagesText : string) : string :=
  "Please provide a brief, bulleted summary of the following notifications:"
  +:+ String newline (String newline messagesText).

(** [handleSummarize] (lines 312-342). *)
Definition handleSummarize (net : Reply) (st : AppState) (d : Draft) : Handled :=
  match length_is_zero (messages st) with
  | Throw e => mkHandled st d [] (Some e)
  | Ok true => mkHandled st d [] None
  | Ok false =>
      let d1 := set_isGenerating true d in
      let st1 := set_errorInfo None st in
      match messages_text (messages st) with
      | Throw e => mkHandled st1 d1 [] (Some e)
      | Ok messagesText =>
          let '(st2, d2) :=
            match first_candidate net with
            | Ok text => (st1, set_isSummaryModalOpen true (set_summary text d1))
            | Throw error =>
                (set_errorInfo (Some "Failed to summarize messages. Check console.")
                   (log (LogError "Gemini API call failed:" (exn_name error)) st1), d1)
            end in
          mkHandled st2 (set_isGenerating false d2) [ask (summary_prompt messagesText)] None
      end
  end.

End Summary.

(** A codec that reads back the texts [Sample.stringify] makes of the
    given values, and rejects every other text. *)
Definition find_value (values : list JValue) (text : string) : option JValue :=
  List.find (fun v => String.eqb (Sample.stringify v) text) values.

Definition codec_for (values : list JValue) : Platform :=
  {| JSON_parse := find_value values; JSON_stringify := Sample.stringify |}.

Definition empty_draft : Draft := mkDraft "" (JString "") false (JString "") false.

Section RecentList.
Context `{Platform}.

(** [handleRemoveTopic] (lines 241-247), called with an entry of the
    list shown; the entries the component puts there are strings. *)
Definition handleRemoveTopic (topicToRemove : string) (st : AppState) : result AppState :=
  match previousTopics st with
  | JArray prevTopics =>
      let newTopics :=
        JArray (filter (fun t => strict_equals t (JString topicToRemove) = false) prevTopics) in
      mret (set_previousTopics newTopics
              (setItem previous_topics_key (JSON_stringify newTopics) st))
  | _ => Throw (type_error "prevTopics.filter is not a function")
  end.

End RecentList.

End Form.

(* ================================================================== *)
(** * Vocabulary of the further properties *)
(* ================================================================== *)

Module Laws.
Import Text Js App Spec.

Definition record_title (v : JValue) : JValue :=
  try_catch (get_prop v "title") (fun _ => JUndefined).

(** The desktop notification for a record of a topic: its title, or the
    default title naming the topic, and its message as body. *)
Definition notification_for (topic : string) (r : JValue) : DesktopNotification :=
  Notify (if to_boolean (record_title r) then record_title r
          else JString ("New message on topic: " +:+ topic))
         (record_message r).

(** What the stream of a topic leaves alone: the list of recent topics,
    the requests issued, the abort controllers, the notification
    permission, and every entry of the storage but the history of the
    topic. *)
Definition loop_frame (topic : string) (st st' : AppState) : Prop :=
  previousTopics st' = previousTopics st /\
  requests st' = requests st /\
  controllers st' = controllers st /\
  abortControllerRef st' = abortControllerRef st /\
  aborted st' = aborted st /\
  permission st' = permission st /\
  forall key, key <> history_key topic ->
    localStorage st' !! key = localStorage st !! key.

(** The same, with the connection status and the error report. *)
Definition stream_frame (topic : string) (st st' : AppState) : Prop :=
  loop_frame topic st st' /\
  connected st' = connected st /\ errorInfo st' = errorInfo st.

(** The history in memory is the one whose serialisation is stored for
    the topic. *)
Definition mirrored `{Platform} (topic : string) (st : AppState) : Prop :=
  getItem (history_key topic) st = Some (JSON_stringify (messages st)).

(** Abort controllers are numbered in the order of their creation.  Each
    one created so far is the current one or has been aborted, and
    nothing else is referred to. *)
Definition controllers_ok (st : AppState) : Prop :=
  (forall c, abortControllerRef st = Some c -> c < controllers st) /\
  (forall c, c ∈ aborted st -> c < controllers st) /\
  (forall c, c < controllers st -> abortControllerRef st = Some c \/ c ∈ aborted st).

(** The state a call of [subscribe] has reached, if the component still
    renders. *)
Definition outcome_state (o : Outcome) : option AppState :=
  match o with
  | Streaming _ st => Some st
  | Returned st => Some st
  | Crashed _ => None
  end.

End Laws.

(* ================================================================== *)
(** * Properties of the line framing *)
(* ================================================================== *)

Import Text Framing Js App Spec.

Lemma split_nonempty sep s : split sep s <> [].
Proof.
  destruct s as [|c s]; simpl; [discriminate|].
  destruct (Ascii.eqb c sep); [discriminate|].
  destruct (split sep s); discriminate.
Qed.

Lemma removelast_cons {A} (x : A) l : l <> [] -> List.removelast (x :: l) = x :: List.removelast l.
Proof. destruct l; [congruence | reflexivity]. Qed.

Lemma last_cons {A} (x d : A) l : l <> [] -> List.last (x :: l) d = List.last l d.
Proof. destruct l; [congruence | reflexivity]. Qed.

Lemma removelast_app_ne {A} (l l' : list A) :
  l' <> [] -> List.removelast (l ++ l') = l ++ List.removelast l'.
Proof.
  intros Hne. induction l as [|x l IH]; [reflexivity|].
  simpl app. rewrite removelast_cons; [by rewrite IH|].
  destruct l; simpl; [assumption | discriminate].
Qed.

Lemma last_app_ne {A} (l l' : list A) d :
  l' <> [] -> List.last (l ++ l') d = List.last l' d.
Proof.
  intros Hne. induction l as [|x l IH]; [reflexivity|].
  simpl app. rewrite last_cons; [exact IH|].
  destruct l; simpl; [assumption | discriminate].
Qed.

Lemma append_cons (c : ascii) (a b : string) : String c a +:+ b = String c (a +:+ b).
Proof. reflexivity. Qed.

Lemma append_empty_l (a : string) : "" +:+ a = a.
Proof. reflexivity. Qed.

Lemma append_assoc (a b c : string) : (a +:+ b) +:+ c = a +:+ (b +:+ c).
Proof.
  induction a as [|x a IH]; [reflexivity|].
  rewrite !append_cons. by rewrite IH.
Qed.

Lemma append_empty_r (a : string) : a +:+ "" = a.
Proof.
  induction a as [|x a IH]; [reflexivity|].
  rewrite append_cons. by rewrite IH.
Qed.

(** Splitting a concatenation: the complete segments of the first part
    stay as they are, its unfinished segment is continued by the second
    part. *)
Lemma split_app sep (a b : string) :
  split sep (a +:+ b) =
  List.removelast (split sep a) ++ split sep (List.last (split sep a) "" +:+ b).
Proof.
  induction a as [|c a IH]; [reflexivity|].
  rewrite append_cons. cbn [split].
  destruct (Ascii.eqb c sep) eqn:Hc.
  - rewrite removelast_cons, last_cons by apply split_nonempty.
    rewrite IH. reflexivity.
  - rewrite IH. pose proof (split_nonempty sep a) as Hne.
    destruct (split sep a) as [|h [|h2 t]]; [congruence| |].
    + cbn [cons_head List.removelast List.last app].
      rewrite append_cons. cbn [split]. rewrite Hc. reflexivity.
    + reflexivity.
Qed.

(** The unfinished segment holds no separator. *)
Lemma split_last sep s :
  split sep (List.last (split sep s) "") = [List.last (split sep s) ""].
Proof.
  induction s as [|c s IH]; [reflexivity|].
  cbn [split]. destruct (Ascii.eqb c sep) eqn:Hc.
  - rewrite last_cons by apply split_nonempty. exact IH.
  - pose proof (split_nonempty sep s) as Hne.
    destruct (split sep s) as [|h [|h2 t]]; [congruence| |].
    + cbn in *. rewrite Hc, IH. reflexivity.
    + exact IH.
Qed.

Lemma feed_app (buffer c1 c2 : string) :
  feed buffer (c1 +:+ c2) =
  let '(l1, b1) := feed buffer c1 in
  let '(l2, b2) := feed b1 c2 in (l1 ++ l2, b2).
Proof.
  unfold feed, pop. rewrite <- append_assoc, split_app.
  rewrite removelast_app_ne, last_app_ne by apply split_nonempty.
  reflexivity.
Qed.

Lemma feed_buffer_clean (buffer chunk : string) :
  split newline (snd (feed buffer chunk)) = [snd (feed buffer chunk)].
Proof. unfold feed, pop. simpl. apply split_last. Qed.

Lemma feed_empty (buffer : string) :
  split newline buffer = [buffer] -> feed buffer "" = ([], buffer).
Proof. intros Hb. unfold feed, pop. rewrite append_empty_r, Hb. reflexivity. Qed.

Lemma frame_feed (chunks : list string) : forall buffer,
  split newline buffer = [buffer] ->
  frame buffer chunks = feed buffer (join chunks).
Proof.
  induction chunks as [|c cs IH]; intros buffer Hb.
  - simpl. symmetry. by apply feed_empty.
  - cbn [frame join fold_right]. fold (join cs). rewrite feed_app.
    pose proof (feed_buffer_clean buffer c) as Hclean.
    destruct (feed buffer c) as [l1 b1]. simpl in Hclean.
    rewrite (IH b1 Hclean). reflexivity.
Qed.

Lemma split_line (line rest : string) :
  single_line line ->
  split newline (line +:+ String newline rest) = line :: split newline rest.
Proof.
  unfold single_line. induction line as [|c line IH]; intros Hline; [reflexivity|].
  rewrite append_cons. cbn [split] in *.
  destruct (Ascii.eqb c newline); [discriminate|].
  pose proof (split_nonempty newline line) as Hne.
  destruct (split newline line) as [|h t] eqn:Hsplit; [congruence|].
  cbn [cons_head] in Hline. injection Hline as -> ->.
  rewrite IH by reflexivity. reflexivity.
Qed.

Lemma split_stream_text (lines : list string) :
  Forall single_line lines ->
  split newline (stream_text lines) = lines ++ [""].
Proof.
  unfold stream_text. induction 1 as [|line lines Hline Hlines IH]; [reflexivity|].
  cbn [map join fold_right]. fold (join (map (fun l => l +:+ String newline "") lines)).
  rewrite append_assoc, append_cons, append_empty_l, split_line by assumption.
  by rewrite IH.
Qed.

Lemma feed_stream_text (lines : list string) :
  Forall single_line lines -> feed "" (stream_text lines) = (lines, "").
Proof.
  intros Hlines. unfold feed, pop. rewrite append_empty_l, split_stream_text by assumption.
  by rewrite List.removelast_last, List.last_last.
Qed.

(** A text without newline is a text that [split] leaves in one piece. *)
Lemma unbroken_single_line (s : string) : unbroken s = true <-> single_line s.
Proof.
  unfold unbroken, single_line. induction s as [|c s IH]; [done|].
  cbn [mentions split]. destruct (Ascii.eqb c newline) eqn:Hc; cbn [orb negb].
  - split; [done | intros [=]].
  - rewrite IH. pose proof (split_nonempty newline s) as Hne.
    destruct (split newline s) as [|h t]; [congruence|]. cbn [cons_head].
    split; [by intros [= -> ->] | by intros [= -> ->]].
Qed.

(** No segment of a split holds a newline. *)
Lemma split_unbroken (s : string) : Forall (fun seg => unbroken seg = true) (split newline s).
Proof.
  induction s as [|c s IH]; [by repeat constructor|].
  cbn [split]. destruct (Ascii.eqb c newline) eqn:Hc.
  - by constructor.
  - pose proof (split_nonempty newline s) as Hne.
    destruct (split newline s) as [|h t]; [congruence|]. cbn [cons_head].
    apply Forall_cons in IH as [Hh Ht]. constructor; [|exact Ht].
    unfold unbroken in *. cbn [mentions]. by rewrite Hc.
Qed.

Lemma stream_text_cons (line : string) (lines : list string) :
  stream_text (line :: lines) = line +:+ String newline (stream_text lines).
Proof.
  unfold stream_text. cbn [map join fold_right].
  by rewrite append_assoc, append_cons, append_empty_l.
Qed.

(** The segments of a split, each but the last closed by a newline, spell
    the text that was split. *)
Lemma split_text (s : string) :
  s = stream_text (List.removelast (split newline s)) +:+ List.last (split newline s) "".
Proof.
  induction s as [|c s IH]; [reflexivity|].
  cbn [split]. pose proof (split_nonempty newline s) as Hne.
  destruct (Ascii.eqb c newline) eqn:Hc.
  - rewrite removelast_cons, last_cons by assumption.
    rewrite stream_text_cons, append_empty_l, append_cons, <- IH.
    apply Ascii.eqb_eq in Hc. by rewrite Hc.
  - destruct (split newline s) as [|h [|h2 t]]; [congruence| |].
    + cbn [cons_head List.removelast List.last] in *.
      change (stream_text []) with "" in *.
      rewrite append_empty_l in *. by rewrite IH at 1.
    + change (cons_head c (h :: h2 :: t)) with (String c h :: h2 :: t).
      rewrite removelast_cons, last_cons in * by discriminate.
      rewrite stream_text_cons in *.
      rewrite !append_cons. by rewrite IH at 1.
Qed.

(** Lines without newline, each closed by a newline, and then any text:
    the split gives the lines back, and goes on in the text. *)
Lemma split_lines_rest (lines : list string) (rest : string) :
  Forall (fun line => unbroken line = true) lines ->
  split newline (stream_text lines +:+ rest) = lines ++ split newline rest.
Proof.
  induction 1 as [|line lines Hline Hlines IH]; [reflexivity|].
  rewrite stream_text_cons, append_assoc, append_cons, split_line
    by (by apply unbroken_single_line).
  by rewrite IH.
Qed.

Lemma feed_lines_rest (lines : list string) (rest : string) :
  Forall (fun line => unbroken line = true) lines -> unbroken rest = true ->
  feed "" (stream_text lines +:+ rest) = (lines, rest).
Proof.
  intros Hlines Hrest. unfold feed, pop.
  rewrite append_empty_l, split_lines_rest by assumption.
  apply unbroken_single_line in Hrest. rewrite Hrest.
  by rewrite List.removelast_last, List.last_last.
Qed.

Section ReadLoop.
Context `{Platform}.

Lemma process_lines_app topic (l1 l2 : list string) : forall st,
  process_lines topic (l1 ++ l2) st =
  (st' ← process_lines topic l1 st; process_lines topic l2 st').
Proof.
  induction l1 as [|line l1 IH]; intros st; [reflexivity|].
  cbn [app process_lines]. destruct (process_line topic line st) as [st1|e]; cbn.
  - apply IH.
  - reflexivity.
Qed.

Lemma read_loop_chunks topic (chunks : list string) (rest : list ReadResult) :
  forall buffer st,
  split newline buffer = [buffer] ->
  read_loop topic (map ReadChunk chunks ++ rest) buffer st =
  read_loop topic (ReadChunk (join chunks) :: rest) buffer st.
Proof.
  induction chunks as [|c cs IH]; intros buffer st Hb.
  - cbn [map app read_loop join fold_right]. rewrite (feed_empty _ Hb). reflexivity.
  - cbn [map app read_loop join fold_right]. fold (join cs).
    rewrite feed_app.
    pose proof (feed_buffer_clean buffer c) as Hclean.
    destruct (feed buffer c) as [l1 b1]. simpl in Hclean.
    destruct (feed b1 (join cs)) as [l2 b2] eqn:Hfeed.
    rewrite process_lines_app.
    destruct (process_lines topic l1 st) as [st1|e]; cbn; [|reflexivity].
    rewrite (IH b1 st1 Hclean). cbn [read_loop]. rewrite Hfeed. reflexivity.
Qed.

(** C2. The line framing does not depend on how the stream is cut into
    chunks.  Fed one by one through
    [buffer += chunk; lines = buffer.split('\n'); buffer = lines.pop()],
    the chunks give
    (1) the segments of the whole text split at its newlines, all but the
        last as the complete lines and the last as the buffer left;
    (2) hence what the whole text gives as a single chunk;
    (3) lines and a buffer that hold no newline and that, each line closed
        by a newline and the buffer last, spell the text received;
    (4) conversely, for a text made of given lines without newline, each
        closed by a newline, and an unfinished rest without newline,
        whatever the chunks that carry it: exactly these lines, in their
        order, and the rest as the buffer; the read loop hands exactly
        these lines to the record loop, once each and in their order, and
        goes on reading with the rest as its buffer, so that a record cut
        by a chunk boundary is processed once its line is complete and
        each of several records in one chunk is processed;
    (5) the state the read loop reaches on the single chunk of the whole
        text. *)
Theorem framing_chunking_invariant (chunks : list string) :
  frame "" chunks = pop (split newline (join chunks)) /\
  frame "" chunks = frame "" [join chunks] /\
  (join chunks = stream_text (frame "" chunks).1 +:+ (frame "" chunks).2 /\
   Forall (fun line => unbroken line = true) (frame "" chunks).1 /\
   unbroken (frame "" chunks).2 = true) /\
  (forall lines rest,
     Forall (fun line => unbroken line = true) lines -> unbroken rest = true ->
     join chunks = stream_text lines +:+ rest ->
     frame "" chunks = (lines, rest) /\
     forall topic more st,
       read_loop topic (map ReadChunk chunks ++ more) "" st =
       match process_lines topic lines st with
       | Ok st' => read_loop topic more rest st'
       | Throw e => RenderError e
       end) /\
  (forall topic more st,
     read_loop topic (map ReadChunk chunks ++ more) "" st =
     read_loop topic (ReadChunk (join chunks) :: more) "" st).
Proof.
  assert (Hframe : frame "" chunks = pop (split newline (join chunks))).
  { rewrite frame_feed by reflexivity. unfold feed. by rewrite append_empty_l. }
  split; [exact Hframe|]. split; [|split; [|split]].
  - rewrite !frame_feed by reflexivity.
    cbn [join fold_right]. by rewrite append_empty_r.
  - rewrite Hframe. unfold pop. cbn [fst snd].
    split; [apply split_text|].
    pose proof (split_unbroken (join chunks)) as Hall.
    pose proof (split_nonempty newline (join chunks)) as Hne.
    rewrite (app_removelast_last "" Hne) in Hall.
    apply Forall_app in Hall as [Hlines Hrest].
    split; [exact Hlines|]. by apply Forall_cons in Hrest as [Hrest _].
  - intros lines rest Hlines Hrest Htext.
    assert (Hfeed : feed "" (join chunks) = (lines, rest)).
    { rewrite Htext. by apply feed_lines_rest. }
    split; [by rewrite frame_feed|].
    intros topic more st. rewrite read_loop_chunks by reflexivity.
    cbn [read_loop]. by rewrite Hfeed.
  - intros topic more st. by apply read_loop_chunks.
Qed.

End ReadLoop.

(** Two records and the first character of a third in two chunks, the
    first record cut after its ninth character: the complete lines are
    the two records, the buffer holds the opening brace. *)
Lemma framing_chunking_invariant_witness :
  let first := Sample.stringify (Sample.event "1" "hi") in
  let second := Sample.stringify (Sample.event "2" "ho") in
  let nl := String newline "" in
  let chunks :=
    [String.substring 0 9 first;
     String.substring 9 (String.length first - 9) first +:+ nl +:+ second +:+ nl +:+ "{"] in
  frame "" chunks = ([first; second], "{") /\
  forall topic more st,
    @read_loop Sample.sample_platform topic (map ReadChunk chunks ++ more) "" st =
    match @process_lines Sample.sample_platform topic [first; second] st with
    | Ok st' => @read_loop Sample.sample_platform topic more "{" st'
    | Throw e => RenderError e
    end.
Proof.
  cbv zeta.
  pose proof (@framing_chunking_invariant Sample.sample_platform
    [String.substring 0 9 (Sample.stringify (Sample.event "1" "hi"));
     String.substring 9 (String.length (Sample.stringify (Sample.event "1" "hi")) - 9)
                      (Sample.stringify (Sample.event "1" "hi"))
       +:+ String newline "" +:+ Sample.stringify (Sample.event "2" "ho")
       +:+ String newline "" +:+ "{"])
    as (_ & _ & _ & Hlines & _).
  apply (Hlines [Sample.stringify (Sample.event "1" "hi");
                 Sample.stringify (Sample.event "2" "ho")] "{").
  - by repeat constructor.
  - reflexivity.
  - vm_compute. reflexivity.
Defined.

(* ================================================================== *)
(** * Properties of the history *)
(* ================================================================== *)

Lemma bind_Ok {A B : Type} (a : A) (f : A -> result B) : (Ok a ≫= f) = f a.
Proof. reflexivity. Qed.

Lemma bind_Throw {A B : Type} (e : exn) (f : A -> result B) : (Throw e ≫= f) = Throw e.
Proof. reflexivity. Qed.

(** On strings [===] is equality of strings, and the order of the two
    operands of [===] does not matter. *)
Lemma strict_equals_strings (a b : string) :
  strict_equals (JString a) (JString b) = true <-> a = b.
Proof. apply String.eqb_eq. Qed.

Lemma SFeqb_sym (x y : spec_float) : SFeqb x y = SFeqb y x.
Proof.
  unfold SFeqb.
  destruct x as [sx|sx| |sx mx ex], y as [sy|sy| |sy my ey]; cbn; try reflexivity;
    try (destruct sx, sy; reflexivity).
  destruct sx, sy; try reflexivity;
    rewrite (Z.compare_antisym ex ey), !Pos.compare_cont_spec,
            (Pos.compare_antisym mx my);
    destruct (ex ?= ey)%Z, (mx ?= my)%positive; reflexivity.
Qed.

Lemma strict_equals_sym (a b : JValue) : strict_equals a b = strict_equals b a.
Proof.
  destruct a, b; cbn; try reflexivity.
  - by destruct b, b0.
  - apply SFeqb_sym.
  - apply String.eqb_sym.
Qed.

Lemma get_prop_readable v k :
  readable v = true ->
  get_prop v k = Ok (try_catch (get_prop v k) (fun _ => JUndefined)).
Proof. destruct v; simpl; intros; congruence. Qed.

Lemma valid_record_readable r : valid_record r = true -> readable r = true.
Proof. destruct r; intros Hv; try reflexivity; discriminate Hv. Qed.

Lemma valid_record_id r : valid_record r = true -> to_boolean (record_id r) = true.
Proof. unfold valid_record. intros Hv. by apply andb_prop in Hv as [? ?]. Qed.

Lemma valid_record_message r :
  valid_record r = true -> to_boolean (record_message r) = true.
Proof. unfold valid_record. intros Hv. by apply andb_prop in Hv as [? ?]. Qed.

Lemma same_id_readable r m :
  readable r = true -> readable m = true ->
  same_id r m = Ok (strict_equals (record_id m) (record_id r)).
Proof.
  intros Hr Hm. unfold same_id.
  rewrite (get_prop_readable m "id") by assumption. cbn.
  rewrite (get_prop_readable r "id") by assumption. reflexivity.
Qed.

(** On readable entries [some] answers without throwing: true when an
    entry has the identifier of the record, false when none has. *)
Lemma array_some_duplicate r (prev : list JValue) :
  readable r = true ->
  Forall (fun e => readable e = true) prev ->
  (exists m, m ∈ prev /\ strict_equals (record_id m) (record_id r) = true) ->
  array_some (same_id r) prev = Ok true.
Proof.
  intros Hr Hprev [m [Hin Heq]].
  induction Hprev as [|x prev Hx Hprev IH]; [by apply elem_of_nil in Hin|].
  cbn [array_some]. rewrite same_id_readable by assumption.
  destruct (strict_equals (record_id x) (record_id r)) eqn:Hx'; [reflexivity|].
  apply IH. apply elem_of_cons in Hin as [->|Hin]; [congruence | assumption].
Qed.

Lemma array_some_fresh r (prev : list JValue) :
  readable r = true ->
  Forall (fun e => readable e = true) prev ->
  Forall (fun m => differ m r) prev ->
  array_some (same_id r) prev = Ok false.
Proof.
  intros Hr Hprev. induction Hprev as [|x prev Hx Hprev IH]; intros Hd; [reflexivity|].
  apply Forall_cons in Hd as [Hd1 Hd2].
  cbn [array_some]. rewrite same_id_readable by assumption.
  unfold differ in Hd1. rewrite Hd1. by apply IH.
Qed.

Section History.
Context `{Platform}.

(** The notification step never throws on a readable record and touches
    nothing but the list of notifications shown. *)
Lemma show_notification_ok topic r st :
  readable r = true ->
  exists st', show_notification topic r st = Ok st' /\
    messages st' = messages st /\ localStorage st' = localStorage st /\
    connected st' = connected st /\ errorInfo st' = errorInfo st /\
    previousTopics st' = previousTopics st /\ console st' = console st.
Proof.
  intros Hr. unfold show_notification.
  destruct (String.eqb (permission st) "granted");
    [|exists st; repeat split; reflexivity].
  rewrite (get_prop_readable r "message") by assumption. cbn.
  destruct (to_boolean _); [|exists st; repeat split; reflexivity].
  rewrite (get_prop_readable r "title") by assumption. cbn.
  eexists. split; [reflexivity|]. by repeat split.
Qed.

(** A record whose identifier is already in the history: the updater
    returns the state it was given. *)
Lemma add_message_duplicate topic r st prev :
  messages st = JArray prev ->
  readable r = true ->
  Forall (fun e => readable e = true) prev ->
  (exists m, m ∈ prev /\ strict_equals (record_id m) (record_id r) = true) ->
  add_message topic r st = Ok st.
Proof.
  intros Hm Hr Hprev Hdup. unfold add_message. rewrite Hm.
  rewrite array_some_duplicate by assumption. reflexivity.
Qed.

(** A record whose identifier is new: it is put in front, the history is
    cut to fifty entries and written to the storage under the key of the
    topic. *)
Lemma add_message_fresh topic r st prev :
  messages st = JArray prev ->
  readable r = true ->
  Forall (fun e => readable e = true) prev ->
  Forall (fun m => differ m r) prev ->
  exists st',
    add_message topic r st = Ok st' /\
    messages st' = JArray (take 50 (r :: prev)) /\
    localStorage st' =
      <[history_key topic := JSON_stringify (JArray (take 50 (r :: prev)))]> (localStorage st) /\
    connected st' = connected st /\ errorInfo st' = errorInfo st /\
    previousTopics st' = previousTopics st /\ console st' = console st.
Proof.
  intros Hm Hr Hprev Hd. unfold add_message. rewrite Hm.
  rewrite array_some_fresh by assumption.
  rewrite bind_Ok. cbv beta iota zeta.
  destruct (show_notification_ok topic r
              (setItem (history_key topic)
                 (JSON_stringify (JArray (take 50 (r :: prev)))) st) Hr)
    as (st2 & -> & Hmsg & Hstore & Hconn & Herr & Hprevious & Hconsole).
  rewrite bind_Ok. eexists. split; [reflexivity|].
  cbn [set_messages messages localStorage connected errorInfo previousTopics console].
  rewrite Hstore, Hconn, Herr, Hprevious, Hconsole. by repeat split.
Qed.

End History.

Section Delivery.
Context `{Platform}.

Lemma reverse_cons_app {A} (x : A) (l k : list A) :
  reverse (x :: l) ++ k = reverse l ++ x :: k.
Proof. by rewrite reverse_cons, <- app_assoc. Qed.

Lemma take_app_take {A} (n : nat) (a b : list A) :
  take n (a ++ take n b) = take n (a ++ b).
Proof.
  rewrite !take_app. f_equal. rewrite take_take. f_equal. lia.
Qed.

(** Valid records with new identifiers, handed over one by one, pile up
    in front of the history, newest first, cut to fifty. *)
Lemma deliver_distinct topic (records : list JValue) : forall st prev,
  messages st = JArray prev ->
  length prev <= 50 ->
  Forall (fun e => readable e = true) prev ->
  Forall (fun r => valid_record r = true) records ->
  distinct_ids records ->
  Forall (fun m => Forall (differ m) records) prev ->
  exists st',
    deliver topic records st = Ok st' /\
    messages st' = JArray (take 50 (reverse records ++ prev)) /\
    (records <> [] ->
     localStorage st' !! history_key topic = Some (JSON_stringify (messages st'))) /\
    connected st' = connected st /\ errorInfo st' = errorInfo st.
Proof.
  induction records as [|r rest IH]; intros st prev Hm Hlen Hprev Hvalid Hdist Hnew.
  - exists st. cbn [deliver reverse app]. repeat split; try done.
    rewrite Hm. f_equal. symmetry. by apply take_ge.
  - apply Forall_cons in Hvalid as [Hr Hvalid].
    inversion Hdist as [|? ? Hr_rest Hdist']; subst.
    destruct (add_message_fresh topic r st prev Hm (valid_record_readable r Hr) Hprev)
      as (st1 & Hadd & Hm1 & Hstore1 & Hconn1 & Herr1 & _).
    { eapply Forall_impl; [exact Hnew|]. intros m Hmr. by apply Forall_cons in Hmr as [? ?]. }
    destruct (IH st1 (take 50 (r :: prev))) as (st' & Hdel & Hm' & Hstore' & Hconn' & Herr').
    + exact Hm1.
    + rewrite length_take. lia.
    + apply Forall_take. constructor; [by apply valid_record_readable | assumption].
    + assumption.
    + assumption.
    + apply Forall_take. constructor.
      * apply List.Forall_forall. intros x Hx. eapply List.Forall_forall in Hr_rest; eauto.
      * eapply Forall_impl; [exact Hnew|]. intros m Hmr. by apply Forall_cons in Hmr as [? ?].
    + exists st'. cbn [deliver]. rewrite Hadd, bind_Ok. split; [exact Hdel|].
      split; [|split; [|split; congruence]].
      * rewrite Hm'. f_equal. rewrite take_app_take.
        rewrite reverse_cons, <- app_assoc. reflexivity.
      * intros _. destruct rest as [|r2 rest'].
        -- cbn [deliver] in Hdel. injection Hdel as <-.
           rewrite Hstore1, Hm1. apply lookup_insert_eq.
        -- apply Hstore'. discriminate.
Qed.

Lemma decode_line_valid line r :
  JSON_parse line = Some r -> valid_record r = true ->
  decode_line line = Ok (Some r).
Proof.
  intros Hparse Hvalid. unfold decode_line, parse. rewrite Hparse, bind_Ok.
  pose proof (valid_record_readable r Hvalid) as Hr.
  rewrite (get_prop_readable r "id") by assumption. rewrite bind_Ok.
  fold (record_id r). rewrite (valid_record_id r Hvalid).
  rewrite (get_prop_readable r "message") by assumption. rewrite bind_Ok.
  fold (record_message r). rewrite (valid_record_message r Hvalid). reflexivity.
Qed.

Lemma process_line_valid topic line r st :
  decodes_to line r -> valid_record r = true ->
  process_line topic line st = add_message topic r st.
Proof.
  intros [Hblank Hparse] Hvalid. unfold process_line.
  rewrite Hblank, (decode_line_valid line r) by assumption. reflexivity.
Qed.

Lemma process_lines_deliver topic (lines : list string) (records : list JValue) :
  Forall2 decodes_to lines records ->
  Forall (fun r => valid_record r = true) records ->
  forall st, process_lines topic lines st = deliver topic records st.
Proof.
  induction 1 as [|line r lines records Hline Hrest IH]; intros Hvalid st; [reflexivity|].
  apply Forall_cons in Hvalid as [Hr Hvalid].
  cbn [process_lines deliver]. rewrite (process_line_valid topic line r) by assumption.
  destruct (add_message topic r st) as [st1|e]; [|reflexivity].
  rewrite !bind_Ok. by apply IH.
Qed.

Lemma ForallOrdPairs_take {A} (R : A -> A -> Prop) (k : nat) (l : list A) :
  List.ForallOrdPairs R l -> List.ForallOrdPairs R (take k l).
Proof.
  intros Hd. revert k.
  induction Hd as [|r rest Hr Hd IH]; intros [|k]; cbn [take]; try constructor.
  - apply List.Forall_forall. intros x Hx.
    eapply List.Forall_forall in Hr; [exact Hr|].
    apply list_elem_of_In. apply list_elem_of_In in Hx.
    apply elem_of_take in Hx as (i & Hi & _). by eapply list_elem_of_lookup_2.
  - apply IH.
Qed.

Lemma distinct_ids_take (k : nat) (records : list JValue) :
  distinct_ids records -> distinct_ids (take k records).
Proof. apply ForallOrdPairs_take. Qed.

End Delivery.

Section HistoryOrder.
Context `{Platform}.

(** C1. Valid records with pairwise distinct identifiers arrive, line by
    line, at the record loop of one topic whose history is empty.
    (1) After every number [k] of lines the history holds exactly the [k]
        records received, the most recent first, cut to the fifty newest,
        and as soon as one record has been appended the storage holds,
        under the key of the topic, the serialised history of that
        moment.
    (2) However the text of these lines is cut into chunks, the read loop
        fed with the chunks comes to rest with an empty buffer and with
        that same history of all the records. *)
Theorem history_of_distinct_records topic (lines : list string)
    (records : list JValue) (st : AppState) :
  Forall2 decodes_to lines records ->
  Forall (fun r => valid_record r = true) records ->
  distinct_ids records ->
  messages st = JArray [] ->
  (forall k, exists st_k,
     process_lines topic (take k lines) st = Ok st_k /\
     messages st_k = JArray (take 50 (reverse (take k records))) /\
     (take k records <> [] ->
      localStorage st_k !! history_key topic = Some (JSON_stringify (messages st_k)))) /\
  (Forall single_line lines ->
   forall chunks, join chunks = stream_text lines ->
   exists st',
     read_loop topic (map ReadChunk chunks) "" st = Awaiting "" st' /\
     messages st' = JArray (take 50 (reverse records)) /\
     (records <> [] ->
      localStorage st' !! history_key topic = Some (JSON_stringify (messages st')))).
Proof.
  intros Hlines Hvalid Hdist Hempty.
  assert (Hprefix : forall k, exists st_k,
     process_lines topic (take k lines) st = Ok st_k /\
     messages st_k = JArray (take 50 (reverse (take k records))) /\
     (take k records <> [] ->
      localStorage st_k !! history_key topic = Some (JSON_stringify (messages st_k)))).
  { intros k.
    rewrite (process_lines_deliver topic (take k lines) (take k records)).
    - destruct (deliver_distinct topic (take k records) st [])
        as (st_k & Hdel & Hm & Hstore & _); try done.
      + cbn. lia.
      + by apply Forall_take.
      + by apply distinct_ids_take.
      + exists st_k. rewrite app_nil_r in Hm. done.
    - by apply Forall2_take.
    - by apply Forall_take. }
  split; [exact Hprefix|].
  intros Hsingle chunks Htext.
  destruct (Hprefix (length lines)) as (st' & Hrun & Hm & Hstore).
  rewrite take_ge in Hrun by lia.
  rewrite (take_ge records (length lines)) in Hm, Hstore
    by (apply Forall2_length in Hlines; lia).
  exists st'. split; [|by split].
  pose proof (read_loop_chunks topic chunks [] "" st eq_refl) as Hloop.
  rewrite app_nil_r in Hloop. rewrite Hloop, Htext. cbn [read_loop].
  rewrite (feed_stream_text lines Hsingle), Hrun. reflexivity.
Qed.

(** C3. A valid record arrives whose identifier is, by the comparison
    [===] of the updater, the identifier of an entry of the history.  The
    iteration of the record loop returns the state it was given: the
    history is the same sequence, nothing is written to the storage and no
    notification is shown. *)
Theorem duplicate_id_is_noop topic (line : string) (r : JValue)
    (st : AppState) (prev : list JValue) :
  decodes_to line r ->
  valid_record r = true ->
  messages st = JArray prev ->
  Forall (fun e => readable e = true) prev ->
  Exists (fun msg => strict_equals (record_id msg) (record_id r) = true) prev ->
  process_line topic line st = Ok st.
Proof.
  intros Hline Hvalid Hm Hprev Hdup.
  rewrite (process_line_valid topic line r) by assumption.
  apply (add_message_duplicate topic r st prev); try assumption.
  - by apply valid_record_readable.
  - apply Exists_exists in Hdup as (m & Hin & Heq). eauto.
Qed.

End HistoryOrder.

Lemma history_of_distinct_records_witness :
  let lines := [Sample.stringify (Sample.event "1" "hi");
                Sample.stringify (Sample.event "2" "ho");
                Sample.stringify (Sample.event "3" "hey")] in
  let records := [Sample.event "1" "hi"; Sample.event "2" "ho"; Sample.event "3" "hey"] in
  Forall2 (@decodes_to Sample.sample_platform) lines records /\
  Forall (fun r => valid_record r = true) records /\
  distinct_ids records /\
  messages Sample.empty_app = JArray [] /\
  exists st_2,
    @process_lines Sample.sample_platform "alerts" (take 2 lines) Sample.empty_app = Ok st_2 /\
    messages st_2 = JArray [Sample.event "2" "ho"; Sample.event "1" "hi"] /\
    localStorage st_2 !! history_key "alerts" = Some (Sample.stringify (messages st_2)).
Proof.
  assert (Hlines : Forall2 (@decodes_to Sample.sample_platform)
            [Sample.stringify (Sample.event "1" "hi");
             Sample.stringify (Sample.event "2" "ho");
             Sample.stringify (Sample.event "3" "hey")]
            [Sample.event "1" "hi"; Sample.event "2" "ho"; Sample.event "3" "hey"]).
  { repeat constructor. }
  assert (Hvalid : Forall (fun r => valid_record r = true)
            [Sample.event "1" "hi"; Sample.event "2" "ho"; Sample.event "3" "hey"]).
  { repeat constructor. }
  assert (Hdist : distinct_ids
            [Sample.event "1" "hi"; Sample.event "2" "ho"; Sample.event "3" "hey"]).
  { repeat constructor. }
  cbv zeta.
  split; [exact Hlines|]. split; [exact Hvalid|]. split; [exact Hdist|].
  split; [reflexivity|].
  destruct (@history_of_distinct_records Sample.sample_platform "alerts" _ _
              Sample.empty_app Hlines Hvalid Hdist eq_refl) as [Hprefix _].
  destruct (Hprefix 2) as (st_2 & Hrun & Hm & Hstore).
  exists st_2. split; [exact Hrun|]. split; [exact Hm|].
  apply Hstore. discriminate.
Defined.

Lemma duplicate_id_is_noop_witness :
  let st := set_messages (JArray [Sample.timed_event]) Sample.empty_app in
  let line := Sample.stringify (Sample.event "1" "hi") in
  @decodes_to Sample.sample_platform line (Sample.event "1" "hi") /\
  valid_record (Sample.event "1" "hi") = true /\
  messages st = JArray [Sample.timed_event] /\
  Forall (fun e => readable e = true) [Sample.timed_event] /\
  Exists (fun msg => strict_equals (record_id msg) (record_id (Sample.event "1" "hi")) = true)
         [Sample.timed_event] /\
  @process_line Sample.sample_platform "alerts" line st = Ok st.
Proof.
  assert (Hline : @decodes_to Sample.sample_platform
            (Sample.stringify (Sample.event "1" "hi")) (Sample.event "1" "hi")).
  { split; reflexivity. }
  assert (Hprev : Forall (fun e => readable e = true) [Sample.timed_event]).
  { repeat constructor. }
  assert (Hdup : Exists (fun msg =>
            strict_equals (record_id msg) (record_id (Sample.event "1" "hi")) = true)
            [Sample.timed_event]).
  { apply Exists_cons_hd. reflexivity. }
  cbv zeta.
  split; [exact Hline|]. split; [reflexivity|]. split; [reflexivity|].
  split; [exact Hprev|]. split; [exact Hdup|].
  exact (@duplicate_id_is_noop Sample.sample_platform "alerts" _ _
           (set_messages (JArray [Sample.timed_event]) Sample.empty_app)
           [Sample.timed_event] Hline eq_refl eq_refl Hprev Hdup).
Defined.

(* ================================================================== *)
(** * Acceptance of decoded records *)
(* ================================================================== *)

Lemma lookup_field_absent k (fields : list (string * JValue)) :
  existsb (fun kv => String.eqb k (fst kv)) fields = false ->
  lookup_field k fields = JUndefined.
Proof.
  induction fields as [|[k' v] fields IH]; [reflexivity|].
  cbn [existsb lookup_field fst]. intros Hex.
  apply orb_false_elim in Hex as [Hk Hrest]. rewrite Hk. by apply IH.
Qed.

Lemma get_prop_absent k r :
  readable r = true -> has_field k r = false -> get_prop r k = Ok JUndefined.
Proof.
  destruct r; cbn [readable has_field get_prop]; intros Hr Hk; try done.
  by rewrite lookup_field_absent.
Qed.

Lemma truthy_field_present k r :
  to_boolean (try_catch (get_prop r k) (fun _ => JUndefined)) = true ->
  has_field k r = true.
Proof.
  destruct r; cbn [get_prop try_catch to_boolean has_field]; try discriminate.
  intros Ht. destruct (existsb _ fields) eqn:Hex; [reflexivity|].
  rewrite (lookup_field_absent _ _ Hex) in Ht. discriminate.
Qed.

Section Acceptance.
Context `{Platform}.

Lemma decode_line_accepts line r :
  decode_line line = Ok (Some r) ->
  JSON_parse line = Some r /\ valid_record r = true.
Proof.
  unfold decode_line, parse. destruct (JSON_parse line) as [v|]; [|discriminate].
  rewrite bind_Ok. destruct (readable v) eqn:Hv.
  - rewrite (get_prop_readable v "id"), bind_Ok by assumption.
    fold (record_id v). destruct (to_boolean (record_id v)) eqn:Hid; [|discriminate].
    rewrite (get_prop_readable v "message"), bind_Ok by assumption.
    fold (record_message v).
    destruct (to_boolean (record_message v)) eqn:Hmsg; [|discriminate].
    intros [= <-]. split; [reflexivity|]. unfold valid_record. by rewrite Hid, Hmsg.
  - destruct v; discriminate.
Qed.

Lemma decode_line_incomplete line r :
  JSON_parse line = Some r -> readable r = true ->
  has_field "id" r = false \/ has_field "message" r = false ->
  decode_line line = Ok None.
Proof.
  intros Hparse Hr Hmissing. unfold decode_line, parse. rewrite Hparse, bind_Ok.
  destruct Hmissing as [Hid|Hmsg].
  - rewrite (get_prop_absent "id" r), bind_Ok by assumption. reflexivity.
  - rewrite (get_prop_readable r "id"), bind_Ok by assumption.
    destruct (to_boolean _); [|reflexivity].
    rewrite (get_prop_absent "message" r), bind_Ok by assumption. reflexivity.
Qed.

(** C7. What a stream line does to the history.
    (1) The history changes only for a line that decodes to a value
        carrying both an [id] and a [message], each of them truthy.
    (2) A decoded value that lacks one of the two fields leaves the whole
        state as it was: nothing is added, logged or reported.
    (3) A line that [JSON.parse] rejects is written to the console and
        skipped: history, storage, connection status and error report stay
        as they were, and the record loop goes on with the lines that
        follow. *)
Theorem record_acceptance topic (line : string) (st : AppState) :
  (forall st', process_line topic line st = Ok st' ->
     messages st' <> messages st ->
     exists r, JSON_parse line = Some r /\
       has_field "id" r = true /\ has_field "message" r = true /\
       valid_record r = true) /\
  (forall r, JSON_parse line = Some r -> readable r = true ->
     has_field "id" r = false \/ has_field "message" r = false ->
     process_line topic line st = Ok st) /\
  (String.eqb (trim line) "" = false -> JSON_parse line = None ->
     process_line topic line st = Ok (log (parse_failure line) st) /\
     messages (log (parse_failure line) st) = messages st /\
     localStorage (log (parse_failure line) st) = localStorage st /\
     connected (log (parse_failure line) st) = connected st /\
     errorInfo (log (parse_failure line) st) = errorInfo st /\
     forall rest, process_lines topic (line :: rest) st =
                  process_lines topic rest (log (parse_failure line) st)).
Proof.
  split; [|split].
  - intros st' Hstep Hchanged. unfold process_line in Hstep.
    destruct (String.eqb (trim line) ""); [congruence|].
    destruct (decode_line line) as [[r|]|e] eqn:Hdecode.
    + apply decode_line_accepts in Hdecode as [Hparse Hvalid].
      exists r. split; [assumption|].
      split; [apply truthy_field_present; by apply valid_record_id|].
      split; [apply truthy_field_present; by apply valid_record_message|].
      assumption.
    + congruence.
    + injection Hstep as <-. by destruct Hchanged.
  - intros r Hparse Hr Hmissing. unfold process_line.
    destruct (String.eqb (trim line) ""); [reflexivity|].
    by rewrite (decode_line_incomplete line r).
  - intros Hblank Hparse.
    assert (Hstep : process_line topic line st = Ok (log (parse_failure line) st)).
    { unfold process_line, decode_line, parse. rewrite Hblank, Hparse. reflexivity. }
    repeat (split; [done|]). intros rest. cbn [process_lines]. by rewrite Hstep.
Qed.

End Acceptance.

Lemma record_acceptance_witness :
  let st := set_messages (JArray [Sample.event "1" "hi"]) Sample.empty_app in
  let no_message := Sample.stringify (JObject [("id", JString "4")]) in
  let garbage := "{not json" in
  @process_line Sample.sample_platform "alerts" no_message st = Ok st /\
  @process_line Sample.sample_platform "alerts" garbage st =
    Ok (log (parse_failure garbage) st) /\
  exists st', @process_lines Sample.sample_platform "alerts"
                 [garbage; Sample.stringify (Sample.event "2" "ho")] st = Ok st' /\
              messages st' = JArray [Sample.event "2" "ho"; Sample.event "1" "hi"].
Proof.
  cbv zeta.
  pose proof (@record_acceptance Sample.sample_platform "alerts"
                (Sample.stringify (JObject [("id", JString "4")]))
                (set_messages (JArray [Sample.event "1" "hi"]) Sample.empty_app))
    as (_ & Hsilent & _).
  pose proof (@record_acceptance Sample.sample_platform "alerts" "{not json"
                (set_messages (JArray [Sample.event "1" "hi"]) Sample.empty_app))
    as (_ & _ & Hskip).
  destruct (Hskip eq_refl eq_refl) as (Hstep & _ & _ & _ & _ & Hnext).
  split; [|split].
  - apply (Hsilent (JObject [("id", JString "4")])); [reflexivity|reflexivity|].
    right. reflexivity.
  - exact Hstep.
  - rewrite Hnext. eexists. split; reflexivity.
Defined.

(* ================================================================== *)
(** * The invariant of the history *)
(* ================================================================== *)




Section Invariant.
Context `{Platform}.



End Invariant.

Section InvariantTheorem.
Context `{Platform}.

Lemma load_history_messages topic st :
  messages (load_history topic st) =
  match getItem (history_key topic) st with
  | Some saved =>
      if non_empty saved then
        match JSON_parse saved with Some v => v | None => JArray [] end
      else JArray []
  | None => JArray []
  end.
Proof.
  unfold load_history, read_history, parse.
  destruct (getItem (history_key topic) st) as [saved|]; [|reflexivity].
  destruct (non_empty saved); [|reflexivity].
  destruct (JSON_parse saved); reflexivity.
Qed.


Lemma append_inj_l (prefix a b : string) : prefix +:+ a = prefix +:+ b -> a = b.
Proof.
  induction prefix as [|c prefix IH]; [done|].
  rewrite !append_cons. intros [= Heq]. by apply IH.
Qed.





End InvariantTheorem.



(* ================================================================== *)
(** * Loading and clearing *)
(* ================================================================== *)

Lemma history_key_inj topic topic' : history_key topic = history_key topic' -> topic = topic'.
Proof. apply append_inj_l. Qed.

Section Store.
Context `{Platform}.

Lemma load_history_caught topic st e :
  read_history topic st = Throw e -> messages (load_history topic st) = JArray [].
Proof. intros Hthrow. unfold load_history. rewrite Hthrow. reflexivity. Qed.

Lemma mount_previousTopics store perm :
  previousTopics (mount store perm) = fst (initial_previousTopics store).
Proof. unfold mount. destruct (initial_previousTopics store). reflexivity. Qed.

(** C8. Loading persisted state always yields a value.  The history of a
    topic is the empty sequence when nothing is stored under its key, when
    the stored text does not parse, and in general whenever the body of
    the [try] throws; the list of recent topics of a freshly mounted
    component is empty in the same three cases. *)
Theorem load_degrades_to_empty topic (st : AppState)
    (store : gmap string string) (perm : string) :
  (getItem (history_key topic) st = None ->
   messages (load_history topic st) = JArray []) /\
  (forall saved, getItem (history_key topic) st = Some saved ->
     JSON_parse saved = None -> messages (load_history topic st) = JArray []) /\
  (forall e, read_history topic st = Throw e ->
     messages (load_history topic st) = JArray []) /\
  (store !! previous_topics_key = None ->
   previousTopics (mount store perm) = JArray []) /\
  (forall saved, store !! previous_topics_key = Some saved ->
     JSON_parse saved = None -> previousTopics (mount store perm) = JArray []) /\
  (forall e, read_previousTopics store = Throw e ->
     previousTopics (mount store perm) = JArray []).
Proof.
  repeat split.
  - intros Hnone. by rewrite load_history_messages, Hnone.
  - intros saved Hsome Hparse. rewrite load_history_messages, Hsome, Hparse.
    by destruct (non_empty saved).
  - apply load_history_caught.
  - intros Hnone. rewrite mount_previousTopics.
    unfold initial_previousTopics, read_previousTopics. by rewrite Hnone.
  - intros saved Hsome Hparse. rewrite mount_previousTopics.
    unfold initial_previousTopics, read_previousTopics, parse. rewrite Hsome, Hparse.
    by destruct (non_empty saved).
  - intros e Hthrow. rewrite mount_previousTopics.
    unfold initial_previousTopics. by rewrite Hthrow.
Qed.

(** C9. Clearing the history of a topic empties the in-memory sequence,
    removes the entry stored under the key of that topic, and leaves the
    stored history of every other topic as it was. *)
Theorem clear_history topic (st : AppState) :
  messages (handleClearMessages topic st) = JArray [] /\
  getItem (history_key topic) (handleClearMessages topic st) = None /\
  forall topic', topic' <> topic ->
    getItem (history_key topic') (handleClearMessages topic st) =
    getItem (history_key topic') st.
Proof.
  split; [reflexivity|]. split.
  - apply lookup_delete_eq.
  - intros topic' Hne. apply lookup_delete_ne.
    intros Heq. apply Hne. symmetry. by apply history_key_inj.
Qed.

End Store.

Lemma load_degrades_to_empty_witness :
  let store : gmap string string :=
    <[history_key "alerts" := "[{broken"]> (<[previous_topics_key := "oops"]> ∅) in
  let st := set_localStorage store Sample.empty_app in
  messages (@load_history Sample.sample_platform "alerts" st) = JArray [] /\
  messages (@load_history Sample.sample_platform "other" st) = JArray [] /\
  previousTopics (@mount Sample.sample_platform store "default") = JArray [].
Proof.
  cbv zeta.
  pose proof (@load_degrades_to_empty Sample.sample_platform "alerts"
    (set_localStorage
       (<[history_key "alerts" := "[{broken"]> (<[previous_topics_key := "oops"]> ∅))
       Sample.empty_app)
    (<[history_key "alerts" := "[{broken"]> (<[previous_topics_key := "oops"]> ∅))
    "default") as (_ & Hcorrupt & _ & _ & Htopics & _).
  pose proof (@load_degrades_to_empty Sample.sample_platform "other"
    (set_localStorage
       (<[history_key "alerts" := "[{broken"]> (<[previous_topics_key := "oops"]> ∅))
       Sample.empty_app) ∅ "default") as (Habsent & _).
  split; [|split].
  - apply (Hcorrupt "[{broken"); reflexivity.
  - apply Habsent. reflexivity.
  - apply (Htopics "oops"); reflexivity.
Defined.

Lemma clear_history_witness :
  let store : gmap string string :=
    <[history_key "alerts" := "[1]"]> (<[history_key "builds" := "[2]"]> ∅) in
  let st := set_localStorage store Sample.empty_app in
  "builds" <> "alerts" /\
  getItem (history_key "alerts") (handleClearMessages "alerts" st) = None /\
  getItem (history_key "builds") (handleClearMessages "alerts" st) = Some "[2]".
Proof.
  cbv zeta.
  pose proof (clear_history "alerts"
    (set_localStorage
       (<[history_key "alerts" := "[1]"]> (<[history_key "builds" := "[2]"]> ∅))
       Sample.empty_app)) as (_ & Hgone & Hothers).
  split; [discriminate|]. split; [exact Hgone|].
  rewrite (Hothers "builds") by discriminate. reflexivity.
Defined.

(* ================================================================== *)
(** * Validation and the ways out of the read loop *)
(* ================================================================== *)

Section Subscription.
Context `{Platform}.

(** C6. A call of [subscribe] with a topic that is empty (or blank) ends
    at once: it reports "Topic cannot be empty." with the disconnected
    status, issues no request, creates no abort controller, and does not
    touch the history nor the storage. *)
Theorem empty_topic_rejected server topic (net : FetchResult) (st : AppState) :
  trim topic = "" ->
  exists st',
    subscribe server topic net st = Returned st' /\
    errorInfo st' = Some "Topic cannot be empty." /\
    connected st' = false /\
    requests st' = requests st /\
    controllers st' = controllers st /\
    messages st' = messages st /\
    localStorage st' = localStorage st /\
    console st' = console st.
Proof.
  intros Hblank. unfold subscribe. rewrite Hblank. cbn [non_empty negb].
  eexists. split; [reflexivity|].
  unfold abort_current. destruct (abortControllerRef st); by repeat split.
Qed.

Lemma read_loop_app topic (reads more : list ReadResult) : forall buffer st buffer' st',
  read_loop topic reads buffer st = Awaiting buffer' st' ->
  read_loop topic (reads ++ more) buffer st = read_loop topic more buffer' st'.
Proof.
  induction reads as [|[text|flag|error] reads IH]; intros buffer st buffer' st' Hloop.
  - cbn in Hloop. by injection Hloop as -> ->.
  - cbn [read_loop app] in *. destruct (feed buffer text) as [lines b1].
    destruct (process_lines topic lines st) as [st1|e]; [|discriminate].
    by apply IH.
  - cbn [read_loop] in Hloop. by destruct flag.
  - discriminate.
Qed.

Lemma stream_app topic fetchUrl (reads more : list ReadResult) st buffer' st' :
  stream topic fetchUrl reads st = Streaming buffer' st' ->
  stream topic fetchUrl (reads ++ more) st =
  match read_loop topic more buffer' st' with
  | Awaiting buffer st'' => Streaming buffer st''
  | Break st'' => Returned st''
  | Raised error st'' => Returned (on_error fetchUrl error st'')
  | RenderError error => Crashed error
  end.
Proof.
  unfold stream. intros Hstream.
  destruct (read_loop topic reads "" _) as [b s| | |] eqn:Hloop; try discriminate.
  injection Hstream as -> ->.
  by rewrite (read_loop_app topic reads more _ _ _ _ Hloop).
Qed.

(** C5. The stream of a subscription has delivered [reads] and the loop
    waits for the next read, the component being in state [st'].
    - If the next read ends the loop through a cancellation (the stream
      is done while the signal is aborted, or the read rejects with an
      AbortError), [subscribe] returns with [st'] itself: neither
      "Connection closed." nor the connection failure is reported.
    - If the stream is done without cancellation, "Connection closed." is
      reported and [connected] is false.
    - If the read rejects with any other error, "Connection failed. Check
      console." is reported and [connected] is false. *)
Theorem loop_exit_reports topic fetchUrl (reads rest : list ReadResult)
    (st : AppState) buffer' (st' : AppState) :
  stream topic fetchUrl reads st = Streaming buffer' st' ->
  stream topic fetchUrl (reads ++ ReadDone true :: rest) st = Returned st' /\
  (forall e, String.eqb (exn_name e) "AbortError" = true ->
     stream topic fetchUrl (reads ++ ReadRejects e :: rest) st = Returned st') /\
  (exists st'',
     stream topic fetchUrl (reads ++ ReadDone false :: rest) st = Returned st'' /\
     errorInfo st'' = Some "Connection closed." /\ connected st'' = false /\
     messages st'' = messages st' /\ localStorage st'' = localStorage st') /\
  (forall e, String.eqb (exn_name e) "AbortError" = false ->
     exists st'',
       stream topic fetchUrl (reads ++ ReadRejects e :: rest) st = Returned st'' /\
       errorInfo st'' = Some "Connection failed. Check console." /\
       connected st'' = false /\
       messages st'' = messages st' /\ localStorage st'' = localStorage st').
Proof.
  intros Hstream. split; [|split; [|split]].
  - by rewrite (stream_app _ _ _ _ _ _ _ Hstream).
  - intros e He. rewrite (stream_app _ _ _ _ _ _ _ Hstream).
    cbn [read_loop]. unfold on_error. by rewrite He.
  - eexists. rewrite (stream_app _ _ _ _ _ _ _ Hstream).
    cbn [read_loop]. by repeat split.
  - intros e He. eexists. rewrite (stream_app _ _ _ _ _ _ _ Hstream).
    cbn [read_loop]. unfold on_error. rewrite He. by repeat split.
Qed.

End Subscription.

Lemma empty_topic_rejected_witness :
  trim "   " = "" /\
  exists st',
    @subscribe Sample.sample_platform "https://ntfy.sh" "   "
      (FetchResponse true "200 OK" []) Sample.empty_app = Returned st' /\
    errorInfo st' = Some "Topic cannot be empty." /\
    connected st' = false /\
    requests st' = [].
Proof.
  split; [reflexivity|].
  destruct (@empty_topic_rejected Sample.sample_platform "https://ntfy.sh" "   "
              (FetchResponse true "200 OK" []) Sample.empty_app eq_refl)
    as (st' & Hsub & Herr & Hconn & Hreq & _).
  exists st'. by repeat split.
Defined.

Lemma loop_exit_reports_witness :
  let chunk := ReadChunk (Sample.stringify (Sample.event "1" "hi") +:+ String newline "") in
  exists buffer st',
    @stream Sample.sample_platform "alerts" "https://ntfy.sh/alerts/json"
      [chunk] Sample.empty_app = Streaming buffer st' /\
    connected st' = true /\
    @stream Sample.sample_platform "alerts" "https://ntfy.sh/alerts/json"
      ([chunk] ++ [ReadRejects abort_error]) Sample.empty_app = Returned st' /\
    exists st'',
      @stream Sample.sample_platform "alerts" "https://ntfy.sh/alerts/json"
        ([chunk] ++ [ReadDone false]) Sample.empty_app = Returned st'' /\
      errorInfo st'' = Some "Connection closed." /\ connected st'' = false.
Proof.
  cbv zeta. eexists. eexists.
  split; [vm_compute; reflexivity|]. split; [reflexivity|].
  match goal with
  | |- ?lhs = Returned ?s /\ _ =>
      match lhs with
      | stream _ _ ([?c] ++ _) _ =>
          pose proof (@loop_exit_reports Sample.sample_platform "alerts"
                        "https://ntfy.sh/alerts/json" [c] [] Sample.empty_app "" s)
            as Hexit
      end
  end.
  destruct Hexit as (_ & Habort & (st'' & Hclosed & Herr & Hconn & _) & _).
  { vm_compute. reflexivity. }
  split; [apply Habort; reflexivity|].
  exists st''. by repeat split.
Defined.

(* ================================================================== *)
(** * The list of recent topics *)
(* ================================================================== *)

Lemma filter_strings (used : string) (l : list string) :
  filter (fun t => strict_equals t (JString used) = false) (map JString l) =
  map JString (filter (fun s => s <> used) l).
Proof.
  induction l as [|s l IH]; [reflexivity|].
  cbn [map]. destruct (String.eqb_spec s used) as [->|Hne].
  - rewrite !filter_cons_False; [exact IH | by intros ? | ].
    cbn. by rewrite String.eqb_refl.
  - rewrite !filter_cons_True; [cbn [map]; by rewrite IH | assumption |].
    cbn. by apply String.eqb_neq.
Qed.

Lemma filter_absent (used : string) (l : list string) :
  used ∉ l -> filter (fun s => s <> used) l = l.
Proof.
  induction l as [|s l IH]; intros Hnotin; [reflexivity|].
  apply not_elem_of_cons in Hnotin as [Hne Hnotin].
  rewrite filter_cons_True by congruence. by rewrite IH.
Qed.

Lemma take_take_app {A} (n m : nat) (l k : list A) :
  n <= m -> take n (take m l ++ k) = take n (l ++ k).
Proof.
  intros Hnm. rewrite !take_app, take_take, length_take.
  f_equal; f_equal; lia.
Qed.

(** One use of a topic that is not among the strings at the front. *)
Lemma recent_step_fresh (used : string) (front : list string) (tail : list JValue) n :
  10 <= n -> used ∉ front ->
  exists tail',
    recent_step used (take n (map JString front ++ tail)) =
    take 10 (map JString (used :: front) ++ tail').
Proof.
  intros Hn Hfresh. unfold recent_step.
  rewrite take_app, filter_app, <- fmap_take, filter_strings, length_map.
  rewrite filter_absent by (intros Hin; apply Hfresh; apply elem_of_take in Hin as (i & Hi & _);
                            by eapply list_elem_of_lookup_2).
  eexists. rewrite fmap_take. cbn [map app take].
  f_equal. apply take_take_app. lia.
Qed.

Section RecentTopics.
Context `{Platform}.

Lemma move_to_front_array used st (prevTopics : list JValue) :
  previousTopics st = JArray prevTopics ->
  exists st',
    move_to_front used st = Ok st' /\
    previousTopics st' = JArray (recent_step used prevTopics) /\
    localStorage st' =
      <[previous_topics_key := JSON_stringify (JArray (recent_step used prevTopics))]>
        (localStorage st) /\
    messages st' = messages st.
Proof.
  intros Hprev. unfold move_to_front. rewrite Hprev.
  eexists. split; [reflexivity|]. by repeat split.
Qed.

Lemma recordTopicUse_array topic st (prevTopics : list JValue) :
  non_empty (trim topic) = true ->
  previousTopics st = JArray prevTopics ->
  exists st',
    recordTopicUse topic st = Ok st' /\
    previousTopics st' = JArray (recent_step (trim topic) prevTopics) /\
    localStorage st' !! previous_topics_key = Some (JSON_stringify (previousTopics st')) /\
    localStorage st' !! latest_topic_key = Some (trim topic) /\
    messages st' = messages st.
Proof.
  intros Hused Hprev. unfold recordTopicUse. rewrite Hused.
  destruct (move_to_front_array (trim topic)
              (setItem latest_topic_key (trim topic) st) prevTopics Hprev)
    as (st' & Hmove & Hprev' & Hstore & Hmsg).
  exists st'. split; [exact Hmove|]. split; [exact Hprev'|].
  rewrite Hstore, Hprev'. split; [apply lookup_insert_eq|].
  split; [|exact Hmsg].
  rewrite lookup_insert_ne by discriminate. apply lookup_insert_eq.
Qed.

(** Distinct topics used in a row end up in front of the list, the last
    one first. *)
Lemma record_uses_distinct (topics : list string) : forall st front tail n,
  10 <= n ->
  previousTopics st = JArray (take n (map JString front ++ tail)) ->
  Forall (fun t => non_empty (trim t) = true) topics ->
  NoDup (map trim topics) ->
  Forall (fun t => trim t ∉ front) topics ->
  exists st' tail' n',
    record_uses topics st = Ok st' /\ 10 <= n' /\ (topics <> [] -> n' = 10) /\
    previousTopics st' =
      JArray (take n' (map JString (reverse (map trim topics) ++ front) ++ tail')).
Proof.
  induction topics as [|t topics IH]; intros st front tail n Hn Hprev Hused Hnodup Hfresh.
  - exists st, tail, n. by repeat split.
  - apply Forall_cons in Hused as [Ht Hused]. apply Forall_cons in Hfresh as [Htf Hfresh].
    cbn [map] in Hnodup. apply NoDup_cons in Hnodup as [Htnew Hnodup].
    destruct (recordTopicUse_array t st _ Ht Hprev) as (st1 & Hstep & Hprev1 & _).
    destruct (recent_step_fresh (trim t) front tail n Hn Htf) as (tail1 & Htail1).
    rewrite Htail1 in Hprev1.
    destruct (IH st1 (trim t :: front) tail1 10) as (st' & tail' & n' & Hrun & Hn' & Hten & Hfinal);
      try done.
    { apply List.Forall_forall. intros u Hu. apply not_elem_of_cons. split.
      - intros Heq. apply Htnew. rewrite <- Heq.
        apply list_elem_of_In. apply List.in_map. exact Hu.
      - eapply List.Forall_forall in Hfresh; eauto. }
    destruct topics as [|t2 topics'].
    + cbn [record_uses] in Hrun. injection Hrun as <-.
      exists st1, tail1, 10. cbn [record_uses]. rewrite Hstep, bind_Ok.
      by repeat split.
    + exists st', tail', n'. cbn [record_uses]. rewrite Hstep, bind_Ok.
      split; [exact Hrun|]. split; [exact Hn'|]. split; [intros _; by apply Hten|].
      rewrite Hfinal.
      change (map trim (t :: t2 :: topics')) with (trim t :: map trim (t2 :: topics')).
      by rewrite reverse_cons_app.
Qed.

End RecentTopics.

Lemma recent_step_strings (used : string) (l : list string) :
  recent_step used (map JString l) =
  map JString (take 10 (used :: filter (fun s => s <> used) l)).
Proof. unfold recent_step. by rewrite filter_strings, fmap_take. Qed.

Lemma filter_other_two (used x y : string) :
  x <> used -> y <> used ->
  filter (fun s => s <> used) [x; y] = [x; y].
Proof.
  intros Hx Hy. rewrite filter_cons_True by assumption.
  rewrite filter_cons_True by assumption. reflexivity.
Qed.

Section RecentTopicsOrder.
Context `{Platform}.

(** C4, as the code has it.
    (1) Recording the use of a topic that is not blank puts the trimmed
        topic in front of the list of recent topics, removing its earlier
        occurrence if there is one and inserting it otherwise, keeps the
        first ten entries, keeps a duplicate-free list duplicate-free, and
        writes the new list and the latest topic to the storage.
    (2) From the empty list, the uses a, b, c and then a again, of three
        different topics, leave the list [a, c, b].
    (3) Ten or more different topics used in a row, in particular eleven,
        leave exactly the ten used last, the most recent first, whatever
        array the list was before.
    (4) A blank topic is not recorded: the list, the storage and all the
        rest of the component are as they were. *)
Theorem recent_topics_mru :
  (forall topic st (prev : list string),
     non_empty (trim topic) = true ->
     previousTopics st = JArray (map JString prev) ->
     exists st',
       recordTopicUse topic st = Ok st' /\
       previousTopics st' =
         JArray (map JString (take 10 (trim topic :: filter (fun s => s <> trim topic) prev))) /\
       (NoDup prev ->
        NoDup (take 10 (trim topic :: filter (fun s => s <> trim topic) prev))) /\
       length (take 10 (trim topic :: filter (fun s => s <> trim topic) prev)) <= 10 /\
       localStorage st' !! previous_topics_key = Some (JSON_stringify (previousTopics st')) /\
       localStorage st' !! latest_topic_key = Some (trim topic)) /\
  (forall a b c st,
     Forall (fun t => non_empty (trim t) = true) [a; b; c] ->
     NoDup [trim a; trim b; trim c] ->
     previousTopics st = JArray [] ->
     exists st',
       record_uses [a; b; c; a] st = Ok st' /\
       previousTopics st' = JArray [JString (trim a); JString (trim c); JString (trim b)]) /\
  (forall topics st (prevTopics : list JValue),
     Forall (fun t => non_empty (trim t) = true) topics ->
     NoDup (map trim topics) ->
     10 <= length topics ->
     previousTopics st = JArray prevTopics ->
     exists st',
       record_uses topics st = Ok st' /\
       previousTopics st' = JArray (map JString (take 10 (reverse (map trim topics))))) /\
  (forall topic st, trim topic = "" -> recordTopicUse topic st = Ok st).
Proof.
  split; [|split; [|split]].
  - intros topic st prev Hused Hprev.
    destruct (recordTopicUse_array topic st _ Hused Hprev)
      as (st' & Hstep & Hprev' & Hstored & Hlatest & _).
    exists st'. rewrite recent_step_strings in Hprev'.
    split; [exact Hstep|]. split; [exact Hprev'|].
    split; [|split; [rewrite length_take; lia | by split]].
    intros Hnodup. eapply sublist_NoDup; [|apply sublist_take].
    apply NoDup_cons. split; [|by apply NoDup_filter].
    intros Hin. by apply list_elem_of_filter in Hin as [? _].
  - intros a b c st Hused Hnodup Hprev.
    apply Forall_cons in Hused as [Ha Hused]. apply Forall_cons in Hused as [Hb Hused].
    apply Forall_cons in Hused as [Hc _].
    apply NoDup_cons in Hnodup as [Hab Hnodup]. apply NoDup_cons in Hnodup as [Hbc _].
    apply not_elem_of_cons in Hab as [Hab Hac]. apply not_elem_of_cons in Hac as [Hac _].
    apply not_elem_of_cons in Hbc as [Hbc _].
    destruct (recordTopicUse_array a st [] Ha Hprev) as (st1 & Hs1 & Hp1 & _).
    change (recent_step (trim a) []) with (map JString [trim a]) in Hp1.
    destruct (recordTopicUse_array b st1 _ Hb Hp1) as (st2 & Hs2 & Hp2 & _).
    rewrite recent_step_strings, (filter_absent (trim b) [trim a]) in Hp2
      by (apply not_elem_of_cons; split; [congruence | apply not_elem_of_nil]).
    change (take 10 [trim b; trim a]) with [trim b; trim a] in Hp2.
    destruct (recordTopicUse_array c st2 _ Hc Hp2) as (st3 & Hs3 & Hp3 & _).
    rewrite recent_step_strings, filter_other_two in Hp3 by congruence.
    change (take 10 [trim c; trim b; trim a]) with [trim c; trim b; trim a] in Hp3.
    destruct (recordTopicUse_array a st3 _ Ha Hp3) as (st4 & Hs4 & Hp4 & _).
    rewrite recent_step_strings in Hp4.
    rewrite filter_cons_True, filter_cons_True, filter_cons_False, filter_nil in Hp4
      by congruence.
    exists st4. cbn [record_uses]. rewrite Hs1, bind_Ok, Hs2, bind_Ok, Hs3, bind_Ok, Hs4.
    split; [reflexivity | exact Hp4].
  - intros topics st prevTopics Hused Hnodup Hlen Hprev.
    destruct (record_uses_distinct topics st [] prevTopics (10 + length prevTopics))
      as (st' & tail' & n' & Hrun & _ & Hten & Hfinal); try done.
    + lia.
    + rewrite Hprev. cbn [map app]. f_equal. symmetry. apply take_ge. lia.
    + apply List.Forall_forall. intros t _. apply not_elem_of_nil.
    + exists st'. split; [exact Hrun|]. rewrite Hfinal, Hten by (destruct topics; [cbn in Hlen; lia | done]).
      f_equal. rewrite app_nil_r, take_app, fmap_take, length_map, length_reverse, length_map.
      replace (10 - length topics) with 0 by lia. by rewrite take_0, app_nil_r.
  - intros topic st Hblank. unfold recordTopicUse. by rewrite Hblank.
Qed.

End RecentTopicsOrder.

(** The uses a, b, c, a do not leave the list [a, b, c]: the second use of
    a moves it in front of c and b. *)
Lemma recent_topics_order_counterexample :
  exists st',
    @record_uses Sample.sample_platform ["a"; "b"; "c"; "a"] Sample.empty_app = Ok st' /\
    previousTopics st' = JArray [JString "a"; JString "c"; JString "b"] /\
    previousTopics st' <> JArray [JString "a"; JString "b"; JString "c"].
Proof.
  eexists. split; [vm_compute; reflexivity|]. split; [reflexivity|]. discriminate.
Qed.

Lemma recent_topics_mru_witness :
  let topics := ["t1"; "t2"; "t3"; "t4"; "t5"; "t6"; "t7"; "t8"; "t9"; "t10"; " t11 "] in
  (exists st',
     @record_uses Sample.sample_platform ["a"; "b"; "c"; "a"] Sample.empty_app = Ok st' /\
     previousTopics st' = JArray [JString "a"; JString "c"; JString "b"]) /\
  (exists st',
     @record_uses Sample.sample_platform topics Sample.empty_app = Ok st' /\
     previousTopics st' =
       JArray (map JString ["t11"; "t10"; "t9"; "t8"; "t7"; "t6"; "t5"; "t4"; "t3"; "t2"])) /\
  @recordTopicUse Sample.sample_platform "   " Sample.app_over_twice = Ok Sample.app_over_twice.
Proof.
  cbv zeta.
  pose proof (@recent_topics_mru Sample.sample_platform) as (_ & Habca & Heleven & Hblank).
  split; [|split].
  - apply (Habca "a" "b" "c" Sample.empty_app).
    + repeat constructor.
    + compute_done.
    + reflexivity.
  - apply (Heleven ["t1"; "t2"; "t3"; "t4"; "t5"; "t6"; "t7"; "t8"; "t9"; "t10"; " t11 "]
                   Sample.empty_app []).
    + repeat constructor.
    + compute_done.
    + cbn. lia.
    + reflexivity.
  - apply (Hblank "   " Sample.app_over_twice). reflexivity.
Defined.

(* ================================================================== *)
(** * Worked examples on the sample stream *)
(* ================================================================== *)

(** A record with identifier 1 followed by another record with the same
    identifier: the history has one entry. *)
Example same_id_twice_example :
  exists st',
    @process_lines Sample.sample_platform "alerts"
      [Sample.stringify Sample.timed_event; Sample.stringify (Sample.event "1" "hi")]
      Sample.empty_app = Ok st' /\
    messages st' = JArray [Sample.timed_event].
Proof. eexists. split; [vm_compute; reflexivity | reflexivity]. Qed.

(** A first record cut in two by a chunk boundary, its end arriving in
    one chunk with a whole second record: both are in the history once
    the loop has read the two chunks. *)
Example record_across_chunks_example :
  let first := Sample.stringify (Sample.event "1" "hi") in
  let second := Sample.stringify (Sample.event "2" "ho") in
  let nl := String newline "" in
  exists st',
    @read_loop Sample.sample_platform "alerts"
      [ReadChunk (String.substring 0 9 first);
       ReadChunk (String.substring 9 (String.length first - 9) first
                  +:+ nl +:+ second +:+ nl)]
      "" Sample.empty_app = Awaiting "" st' /\
    messages st' = JArray [Sample.event "2" "ho"; Sample.event "1" "hi"].
Proof. eexists. split; [vm_compute; reflexivity | reflexivity]. Qed.

(* ================================================================== *)
(** * Links in a message *)
(* ================================================================== *)

Import Links.

Lemma strip_prefix_app (prefix s after : string) :
  strip_prefix prefix s = Some after -> s = prefix +:+ after.
Proof.
  revert s. induction prefix as [|a prefix IH]; intros s Hstrip.
  - cbn in Hstrip. by injection Hstrip as ->.
  - destruct s as [|b s]; [discriminate|]. cbn [strip_prefix] in Hstrip.
    destruct (Ascii.eqb_spec a b) as [->|]; [|discriminate].
    rewrite append_cons. f_equal. by apply IH.
Qed.

Lemma strip_prefix_self (prefix after : string) :
  strip_prefix prefix (prefix +:+ after) = Some after.
Proof.
  induction prefix as [|a prefix IH]; [reflexivity|].
  rewrite append_cons. cbn [strip_prefix]. by rewrite Ascii.eqb_refl.
Qed.

Lemma strip_prefix_more (prefix s after more : string) :
  strip_prefix prefix s = Some after ->
  strip_prefix prefix (s +:+ more) = Some (after +:+ more).
Proof.
  intros Hstrip. apply strip_prefix_app in Hstrip as ->.
  rewrite append_assoc. apply strip_prefix_self.
Qed.

Lemma span_visible_app (s : string) :
  s = fst (span_visible s) +:+ snd (span_visible s).
Proof.
  induction s as [|c s IH]; [reflexivity|].
  cbn [span_visible]. destruct (is_white_space c); [reflexivity|].
  destruct (span_visible s) as [run rest]. cbn [fst snd] in *.
  rewrite append_cons. by f_equal.
Qed.

Lemma span_visible_run (s : string) : all_visible (fst (span_visible s)) = true.
Proof.
  induction s as [|c s IH]; [reflexivity|].
  cbn [span_visible]. destruct (is_white_space c) eqn:Hc; [reflexivity|].
  destruct (span_visible s) as [run rest]. cbn [fst all_visible] in *.
  by rewrite Hc, IH.
Qed.

Lemma span_visible_all (s : string) :
  all_visible s = true -> span_visible s = (s, "").
Proof.
  induction s as [|c s IH]; [reflexivity|].
  cbn [all_visible span_visible]. intros Hvis.
  apply andb_prop in Hvis as [Hc Hs]. apply negb_true_iff in Hc.
  by rewrite Hc, IH.
Qed.

Lemma span_visible_more (s more : string) :
  fst (span_visible s) <> "" -> fst (span_visible (s +:+ more)) <> "".
Proof.
  destruct s as [|c s]; [done|]. rewrite append_cons. cbn [span_visible].
  destruct (is_white_space c); [done|].
  destruct (span_visible s), (span_visible (s +:+ more)). done.
Qed.

Lemma all_visible_app (a b : string) :
  all_visible (a +:+ b) = all_visible a && all_visible b.
Proof.
  induction a as [|c a IH]; [reflexivity|].
  rewrite append_cons. cbn [all_visible]. by rewrite IH, andb_assoc.
Qed.

(** What a match of one alternative is made of. *)
Lemma match_alternative_spec (prefix s url rest : string) :
  match_alternative prefix s = Some (url, rest) ->
  exists run, url = prefix +:+ run /\ run <> "" /\ all_visible run = true /\
              s = url +:+ rest /\ match_alternative prefix url = Some (url, "").
Proof.
  unfold match_alternative. destruct (strip_prefix prefix s) as [after|] eqn:Hstrip; [|done].
  pose proof (span_visible_app after) as Happ.
  pose proof (span_visible_run after) as Hrun.
  destruct (span_visible after) as [run rest'] eqn:Hspan. cbn [fst snd] in *.
  destruct run as [|c run]; [done|]. intros [= <- <-].
  exists (String c run). split; [reflexivity|]. split; [done|]. split; [exact Hrun|].
  split.
  - apply strip_prefix_app in Hstrip. by rewrite Hstrip, Happ, append_assoc.
  - by rewrite strip_prefix_self, (span_visible_all _ Hrun).
Qed.

Lemma match_alternative_more (prefix s more : string) :
  match_alternative prefix s <> None -> match_alternative prefix (s +:+ more) <> None.
Proof.
  unfold match_alternative. destruct (strip_prefix prefix s) as [after|] eqn:Hstrip; [|done].
  rewrite (strip_prefix_more _ _ _ more Hstrip).
  pose proof (span_visible_more after more) as Hmore.
  destruct (span_visible after) as [[|c run] rest]; [done|].
  destruct (span_visible (after +:+ more)) as [[|c' run'] rest']; [|done].
  intros _. exfalso. by apply Hmore.
Qed.

Lemma match_url_more (s more : string) :
  match_url s <> None -> match_url (s +:+ more) <> None.
Proof.
  unfold match_url. intros Hs.
  destruct (match_alternative "https://" s) eqn:H1.
  { pose proof (match_alternative_more "https://" s more) as Hm.
    rewrite H1 in Hm. destruct (match_alternative "https://" (s +:+ more)); [done|].
    by exfalso; apply Hm. }
  destruct (match_alternative "https://" (s +:+ more)); [done|].
  destruct (match_alternative "http://" s) eqn:H2.
  { pose proof (match_alternative_more "http://" s more) as Hm.
    rewrite H2 in Hm. destruct (match_alternative "http://" (s +:+ more)); [done|].
    by exfalso; apply Hm. }
  destruct (match_alternative "http://" (s +:+ more)); [done|].
  by apply match_alternative_more.
Qed.

(** A match is a non-empty prefix of the text, free of white space, that
    begins with one of the three literals and is itself matched as a
    whole. *)
Lemma match_url_spec (s url rest : string) :
  match_url s = Some (url, rest) ->
  s = url +:+ rest /\ url <> "" /\ all_visible url = true /\ is_url url /\
  (starts_with "https://" url = true \/ starts_with "http://" url = true \/
   starts_with "www." url = true).
Proof.
  intros Hmatch.
  assert (Hextend : forall prefix, match_alternative prefix s = None ->
            s = url +:+ rest -> match_alternative prefix url = None).
  { intros prefix Hnone ->. destruct (match_alternative prefix url) eqn:Hurl; [|done].
    exfalso. apply (match_alternative_more prefix url rest); [by rewrite Hurl | exact Hnone]. }
  unfold match_url in Hmatch. unfold is_url, match_url.
  destruct (match_alternative "https://" s) as [m|] eqn:H1.
  { injection Hmatch as ->.
    apply match_alternative_spec in H1 as (run & -> & Hne & Hvis & Hs & Hself).
    rewrite Hself. split; [exact Hs|]. split; [discriminate|].
    split; [by rewrite all_visible_app, Hvis|]. split; [reflexivity|].
    left. unfold starts_with. by rewrite strip_prefix_self. }
  destruct (match_alternative "http://" s) as [m|] eqn:H2.
  { injection Hmatch as ->.
    apply match_alternative_spec in H2 as (run & -> & Hne & Hvis & Hs & Hself).
    rewrite (Hextend "https://" H1 Hs), Hself. split; [exact Hs|]. split; [discriminate|].
    split; [by rewrite all_visible_app, Hvis|]. split; [reflexivity|].
    right. left. unfold starts_with. by rewrite strip_prefix_self. }
  apply match_alternative_spec in Hmatch as (run & -> & Hne & Hvis & Hs & Hself).
  rewrite (Hextend "https://" H1 Hs), (Hextend "http://" H2 Hs), Hself.
  split; [exact Hs|]. split; [discriminate|].
  split; [by rewrite all_visible_app, Hvis|]. split; [reflexivity|].
  right. right. unfold starts_with. by rewrite strip_prefix_self.
Qed.

Lemma is_url_has_url (url : string) : is_url url -> has_url url = true.
Proof.
  unfold is_url. intros Hurl. destruct url as [|c url]; [discriminate|].
  cbn [has_url]. by rewrite Hurl.
Qed.

Lemma append_length (a b : string) :
  String.length (a +:+ b) = String.length a + String.length b.
Proof.
  induction a as [|c a IH]; [reflexivity|].
  rewrite append_cons. cbn [String.length]. by rewrite IH.
Qed.

(** The parts put together are the text again, whatever the fuel. *)
Lemma split_from_join (fuel : nat) : forall s pending,
  join (split_from fuel s pending) = pending +:+ s.
Proof.
  induction fuel as [|fuel IH]; intros s pending.
  - cbn. by rewrite append_empty_r.
  - destruct s as [|c s]; [cbn; by rewrite !append_empty_r|].
    cbn [split_from]. destruct (match_url (String c s)) as [[url rest]|] eqn:Hmatch.
    + apply match_url_spec in Hmatch as (Hs & _).
      cbn [join fold_right]. fold (join (split_from fuel rest "")).
      by rewrite IH, append_empty_l, Hs.
    + rewrite IH, append_assoc. reflexivity.
Qed.

Lemma shown_render_part (part : string) : shown (render_part part) = part.
Proof. unfold render_part. by destruct (non_empty part && has_url part). Qed.

Lemma append_snoc_split (pending a t : string) (c : ascii) :
  pending +:+ String c "" = a +:+ t -> t <> "" ->
  exists t0, t = t0 +:+ String c "" /\ pending = a +:+ t0.
Proof.
  revert a. induction pending as [|p pending IH]; intros a Heq Hne.
  - destruct a as [|x a].
    + exists "". by rewrite append_empty_l in Heq.
    + rewrite append_empty_l, append_cons in Heq. injection Heq as _ Heq.
      destruct a; [|discriminate]. rewrite append_empty_l in Heq. by subst.
  - destruct a as [|x a].
    + exists (String p pending). by rewrite append_empty_l in Heq.
    + rewrite !append_cons in Heq. injection Heq as -> Heq.
      destruct (IH a Heq Hne) as (t0 & -> & ->).
      exists t0. by rewrite append_cons.
Qed.

(** A piece none of whose positions starts a match in the text contains
    no match of its own. *)
Lemma no_url_inside (pending s : string) :
  (forall a t, pending = a +:+ t -> t <> "" -> match_url (t +:+ s) = None) ->
  has_url pending = false.
Proof.
  induction pending as [|c pending IH]; intros Hinv; [reflexivity|].
  cbn [has_url]. destruct (match_url (String c pending)) eqn:Hmatch.
  - exfalso. apply (match_url_more (String c pending) s); [by rewrite Hmatch|].
    by apply (Hinv "").
  - apply IH. intros a t -> Hne. by apply (Hinv (String c a)).
Qed.

Lemma split_from_alternating (fuel : nat) : forall s pending,
  String.length s <= fuel ->
  (forall a t, pending = a +:+ t -> t <> "" -> match_url (t +:+ s) = None) ->
  alternating (split_from fuel s pending).
Proof.
  induction fuel as [|fuel IH]; intros s pending Hfuel Hinv.
  - destruct s; [|cbn in Hfuel; lia]. cbn. rewrite append_empty_r.
    constructor. by apply (no_url_inside pending "").
  - destruct s as [|c s]; [constructor; by apply (no_url_inside pending "")|].
    cbn [split_from]. destruct (match_url (String c s)) as [[url rest]|] eqn:Hmatch.
    + pose proof (match_url_spec _ _ _ Hmatch) as (Hs & Hne & _ & Hurl & _).
      constructor; [by apply (no_url_inside pending (String c s)) | exact Hurl |].
      apply IH.
      * assert (Hlen : String.length (String c s) =
                       String.length url + String.length rest)
          by (by rewrite Hs at 1; rewrite append_length).
        destruct url; [done|]. cbn [String.length] in *. lia.
      * intros a t Heq Ht. destruct a, t; done.
    + apply IH; [cbn in Hfuel; lia|].
      intros a t Heq Ht. destruct (append_snoc_split _ _ _ _ Heq Ht) as (t0 & -> & ->).
      rewrite append_assoc, append_cons, append_empty_l.
      destruct t0 as [|x t0]; [exact Hmatch|]. by apply (Hinv a).
Qed.

Lemma alternating_parts (parts : list string) :
  alternating parts -> forall p, p ∈ parts -> has_url p = false \/ is_url p.
Proof.
  induction 1 as [text Htext|text url rest Htext Hurl Hrest IH]; intros p Hin.
  - apply list_elem_of_singleton in Hin as ->. by left.
  - apply elem_of_cons in Hin as [->|Hin]; [by left|].
    apply elem_of_cons in Hin as [->|Hin]; [by right | by apply IH].
Qed.

Lemma split_from_no_url (fuel : nat) : forall s pending,
  has_url s = false -> split_from fuel s pending = [pending +:+ s].
Proof.
  induction fuel as [|fuel IH]; intros s pending Hs; [reflexivity|].
  destruct s as [|c s]; [cbn; by rewrite append_empty_r|].
  cbn [split_from has_url] in *. destruct (match_url (String c s)); [discriminate|].
  rewrite IH by assumption. by rewrite append_assoc.
Qed.

(** X1. What [ClickableMessage] shows is the text it was given: the
    rendered parts, read one after the other (plain parts as they are,
    anchors by their label), spell the text, no character lost, added or
    moved. *)
Theorem clickable_message_shows_text (text : string) :
  join (map shown (ClickableMessage text)) = text.
Proof.
  unfold ClickableMessage. rewrite List.map_map.
  rewrite (List.map_ext _ id shown_render_part), List.map_id.
  unfold split_urls. by rewrite split_from_join.
Qed.

(** X2. [text.split(urlRegex)] yields an odd number of parts that are, in
    turn, a stretch of text in which the pattern matches nowhere and one
    whole match of the pattern, starting and ending with a stretch of
    text. *)
Theorem split_urls_alternating (text : string) : alternating (split_urls text).
Proof.
  apply split_from_alternating; [lia|].
  intros a t Heq Ht. destruct a, t; done.
Qed.

(** X3. Every anchor that [ClickableMessage] renders is labelled with one
    whole match of the pattern, free of white space; its target is the
    label itself when this starts with http:// or https://, and the label
    behind https:// when it starts with www., so that every target
    starts with http:// or https://. *)
Theorem anchors_are_urls (text href label : string) :
  Anchor href label ∈ ClickableMessage text ->
  is_url label /\ all_visible label = true /\
  href = (if starts_with "www." label then "https://" +:+ label else label) /\
  (starts_with "http://" href = true \/ starts_with "https://" href = true).
Proof.
  unfold ClickableMessage. intros Hin.
  apply list_elem_of_fmap in Hin as (part & Hrender & Hpart).
  unfold render_part in Hrender.
  destruct (non_empty part && has_url part) eqn:Hlink; [|discriminate].
  injection Hrender as -> ->. apply andb_prop in Hlink as [_ Hhas].
  destruct (alternating_parts _ (split_urls_alternating text) part Hpart)
    as [Hnone|Hurl]; [congruence|].
  pose proof (match_url_spec _ _ _ Hurl) as (_ & _ & Hvis & _ & Hstart).
  split; [exact Hurl|]. split; [exact Hvis|]. split; [reflexivity|].
  destruct (starts_with "www." part) eqn:Hwww.
  - right. unfold starts_with. by rewrite strip_prefix_self.
  - destruct Hstart as [Hs|[Hs|Hs]]; [by right | by left | congruence].
Qed.

(** X4. A text in which the pattern matches nowhere (in particular the
    empty text) is rendered as that one plain text, without anchors. *)
Theorem text_without_url_is_plain (text : string) :
  has_url text = false -> ClickableMessage text = [Plain text].
Proof.
  intros Hnone. unfold ClickableMessage, split_urls.
  rewrite split_from_no_url, append_empty_l by assumption.
  cbn [map]. unfold render_part. by rewrite Hnone, andb_false_r.
Qed.

Lemma anchors_are_urls_witness :
  Anchor "https://www.x.y." "www.x.y." ∈
    ClickableMessage "see https://a.b/c and www.x.y. ok" /\
  is_url "www.x.y." /\
  (starts_with "http://" "https://www.x.y." = true \/
   starts_with "https://" "https://www.x.y." = true).
Proof.
  assert (Hin : Anchor "https://www.x.y." "www.x.y." ∈
                ClickableMessage "see https://a.b/c and www.x.y. ok").
  { vm_compute. do 3 apply list_elem_of_further. apply list_elem_of_here. }
  destruct (anchors_are_urls _ _ _ Hin) as (Hurl & _ & _ & Hstart).
  split; [exact Hin|]. split; [exact Hurl | exact Hstart].
Defined.

Lemma text_without_url_is_plain_witness :
  has_url "https:// www. http://" = false /\
  ClickableMessage "https:// www. http://" = [Plain "https:// www. http://"].
Proof.
  split; [reflexivity|]. apply text_without_url_is_plain. reflexivity.
Defined.

(* ================================================================== *)
(** * Sending a message *)
(* ================================================================== *)

Import Form.

Lemma strip_trailing_slash_added (s : string) : strip_trailing_slash (s +:+ "/") = s.
Proof.
  induction s as [|c s IH]; [reflexivity|].
  rewrite append_cons. destruct (s +:+ "/") as [|a s0] eqn:Hs; [by destruct s|].
  change (strip_trailing_slash (String c (String a s0)))
    with (String c (strip_trailing_slash (String a s0))).
  by rewrite IH.
Qed.

Lemma strip_trailing_slash_cases (s : string) :
  strip_trailing_slash s = s \/ s = strip_trailing_slash s +:+ "/".
Proof.
  induction s as [|c s IH]; [by left|].
  destruct s as [|c' s'].
  - cbn [strip_trailing_slash]. destruct (Ascii.eqb_spec c slash) as [->|]; [by right | by left].
  - change (strip_trailing_slash (String c (String c' s')))
      with (String c (strip_trailing_slash (String c' s'))).
    destruct IH as [IH|IH].
    + left. by rewrite IH.
    + right. rewrite append_cons. by rewrite <- IH.
Qed.

(** X5. The stream of a topic is read from the address messages for the
    topic are posted to, followed by /json; one slash at the end of the
    server address is dropped and no more than one, so that a server
    given with or without a final slash is addressed alike. *)
Theorem server_addresses (server topic : string) :
  fetch_url server topic = publish_url server topic +:+ "/json" /\
  publish_url (server +:+ "/") topic = server +:+ "/" +:+ topic /\
  (strip_trailing_slash server = server \/
   server = strip_trailing_slash server +:+ "/").
Proof.
  split; [|split].
  - unfold fetch_url, publish_url. by rewrite !append_assoc.
  - unfold publish_url. by rewrite strip_trailing_slash_added.
  - apply strip_trailing_slash_cases.
Qed.

(** X6. [sendMessage] with a typed message: when the message or the topic
    is blank nothing is sent and nothing changes; otherwise exactly one
    request is posted to the address of the topic, its body is the
    message as typed (not trimmed), with priority default and the tag
    rocket, and with the trimmed title as Title header exactly when the
    title is not blank. *)
Theorem send_message_request server topic (net : Reply) (st : AppState)
    (d : Draft) (typed : string) :
  newMessage d = JString typed ->
  (trim typed = "" \/ trim topic = "" ->
   sendMessage server topic net st d = mkHandled st d [] None) /\
  (trim typed <> "" -> trim topic <> "" ->
   uncaught (sendMessage server topic net st d) = None /\
   sent (sendMessage server topic net st d) =
     [mkPost (publish_url server topic) typed
        ([("Priority", "default"); ("Tags", "rocket")] ++
         (if String.eqb (trim (newTitle d)) "" then []
          else [("Title", trim (newTitle d))]))]).
Proof.
  intros Htyped. unfold sendMessage. rewrite Htyped. cbn [trim_receiver].
  split.
  - intros [Hblank|Hblank]; rewrite Hblank; cbn [non_empty negb orb]; [reflexivity|].
    by rewrite orb_true_r.
  - intros Hmessage Htopic.
    destruct (trim typed) as [|c1 t1] eqn:H1; [done|].
    destruct (trim topic) as [|c2 t2] eqn:H2; [done|].
    cbn [non_empty negb orb].
    assert (Htitle : (if non_empty (trim (newTitle d))
                      then [("Title", trim (newTitle d))] else []) =
                     (if String.eqb (trim (newTitle d)) "" then []
                      else [("Title", trim (newTitle d))])).
    { by destruct (trim (newTitle d)). }
    rewrite Htitle. by destruct net.
Qed.

(** X7. After [sendMessage] has posted a typed message: when the request
    is answered, whatever the status of the answer, the message and the
    title of the form are emptied; when the request fails, message and
    title stay as typed and the failure goes to the console only.  In
    both cases the error report, the connection status and the history
    are untouched. *)
Theorem send_message_draft server topic (st : AppState) (d : Draft) (typed : string) :
  newMessage d = JString typed -> trim typed <> "" -> trim topic <> "" ->
  (forall ok json,
     after_draft (sendMessage server topic (Replies ok json) st d) =
       set_newTitle "" (set_newMessage (JString "") d) /\
     after_app (sendMessage server topic (Replies ok json) st d) = st) /\
  (forall error,
     after_draft (sendMessage server topic (Rejects error) st d) = d /\
     after_app (sendMessage server topic (Rejects error) st d) =
       log (LogError "Failed to send message:" (exn_name error)) st /\
     errorInfo (after_app (sendMessage server topic (Rejects error) st d)) = errorInfo st /\
     connected (after_app (sendMessage server topic (Rejects error) st d)) = connected st /\
     messages (after_app (sendMessage server topic (Rejects error) st d)) = messages st).
Proof.
  intros Htyped Hmessage Htopic. unfold sendMessage. rewrite Htyped. cbn [trim_receiver].
  destruct (trim typed) as [|c1 t1] eqn:H1; [done|].
  destruct (trim topic) as [|c2 t2] eqn:H2; [done|].
  cbn [non_empty negb orb]. split; [by intros|]. intros error. by repeat split.
Qed.

Lemma send_message_request_witness :
  let d := mkDraft " Build " (JString " done! ") false (JString "") false in
  newMessage d = JString " done! " /\
  sent (sendMessage "https://ntfy.sh/" "alerts" (Replies false None) Sample.empty_app d) =
    [mkPost "https://ntfy.sh/alerts" " done! "
       [("Priority", "default"); ("Tags", "rocket"); ("Title", "Build")]] /\
  sendMessage "https://ntfy.sh/" "  " (Replies true None) Sample.empty_app d =
    mkHandled Sample.empty_app d [] None.
Proof.
  cbv zeta.
  pose proof (send_message_request "https://ntfy.sh/" "alerts" (Replies false None)
                Sample.empty_app
                (mkDraft " Build " (JString " done! ") false (JString "") false)
                " done! " eq_refl) as [_ Hsent].
  pose proof (send_message_request "https://ntfy.sh/" "  " (Replies true None)
                Sample.empty_app
                (mkDraft " Build " (JString " done! ") false (JString "") false)
                " done! " eq_refl) as [Hblank _].
  split; [reflexivity|]. split.
  - destruct Hsent as [_ Hsent]; [discriminate | discriminate | exact Hsent].
  - apply Hblank. right. reflexivity.
Defined.

Lemma send_message_draft_witness :
  let d := mkDraft "Build" (JString "done") false (JString "") false in
  newMessage (after_draft (sendMessage "https://ntfy.sh" "alerts" (Replies false None)
                             Sample.empty_app d)) = JString "" /\
  after_draft (sendMessage "https://ntfy.sh" "alerts" (Rejects (plain_error "offline"))
                 Sample.empty_app d) = d.
Proof.
  cbv zeta.
  destruct (send_message_draft "https://ntfy.sh" "alerts" Sample.empty_app
              (mkDraft "Build" (JString "done") false (JString "") false) "done" eq_refl)
    as [Hanswered Hfailed]; [discriminate | discriminate |].
  split.
  - destruct (Hanswered false None) as [-> _]. reflexivity.
  - destruct (Hfailed (plain_error "offline")) as [-> _]. reflexivity.
Defined.

(* ================================================================== *)
(** * The handlers of the generative service *)
(* ================================================================== *)

(** X8. The text [result.candidates?.[0]?.content?.parts?.[0]?.text] of a
    decoded reply: for an object whose first candidate has a content
    whose first part is an object, it is the [text] field of that part;
    for an object without a [candidates] field it is [undefined]; and on
    [null] the expression throws.  Further fields and further candidates
    or parts play no role. *)
Theorem candidate_text_shape :
  (forall top candidate others content part others',
     lookup_field "candidates" top = JArray (JObject candidate :: others) ->
     lookup_field "content" candidate = JObject content ->
     lookup_field "parts" content = JArray (JObject part :: others') ->
     candidate_text (JObject top) = Ok (lookup_field "text" part)) /\
  (forall top,
     lookup_field "candidates" top = JUndefined ->
     candidate_text (JObject top) = Ok JUndefined) /\
  (forall top, lookup_field "candidates" top = JArray [] ->
     candidate_text (JObject top) = Ok JUndefined) /\
  (exists e, candidate_text JNull = Throw e).
Proof.
  repeat split.
  - intros top candidate others content part others' Hc Hcontent Hparts.
    unfold candidate_text. cbn [get_prop]. rewrite bind_Ok, Hc.
    cbn [chain_first chain_prop]. rewrite Hcontent. cbn [chain_prop].
    rewrite Hparts. reflexivity.
  - intros top Hc. unfold candidate_text. cbn [get_prop]. by rewrite bind_Ok, Hc.
  - intros top Hc. unfold candidate_text. cbn [get_prop]. by rewrite bind_Ok, Hc.
  - eexists. reflexivity.
Qed.

Section Assistant.
Context `{Platform}.

(** X9. [handleGenerateMessage] on a typed prompt.  A blank prompt is
    refused with "Please enter a prompt to generate a message." and sends
    nothing.  Otherwise one request is sent and the busy flag is off when
    the handler is over, with one of two results: the reply decoded and
    the text of its first candidate is truthy, then that text replaces
    the prompt and no error is reported, whatever the status of the
    reply; or the prompt stays as typed, "Failed to generate message.
    Check console." is reported and the failure is logged. *)
Theorem generate_message_outcomes (net : Reply) (st : AppState) (d : Draft)
    (typed : string) :
  newMessage d = JString typed ->
  (trim typed = "" ->
   handleGenerateMessage net st d =
     mkHandled (set_errorInfo (Some "Please enter a prompt to generate a message.") st)
               d [] None) /\
  (trim typed <> "" ->
   uncaught (handleGenerateMessage net st d) = None /\
   sent (handleGenerateMessage net st d) = [ask (generate_prompt typed)] /\
   isGenerating (after_draft (handleGenerateMessage net st d)) = false /\
   newTitle (after_draft (handleGenerateMessage net st d)) = newTitle d /\
   messages (after_app (handleGenerateMessage net st d)) = messages st /\
   ((exists ok reply text,
       net = Replies ok (Some reply) /\ candidate_text reply = Ok text /\
       to_boolean text = true /\
       newMessage (after_draft (handleGenerateMessage net st d)) = text /\
       errorInfo (after_app (handleGenerateMessage net st d)) = None /\
       console (after_app (handleGenerateMessage net st d)) = console st) \/
    (exists error,
       first_candidate net = Throw error /\
       newMessage (after_draft (handleGenerateMessage net st d)) = JString typed /\
       errorInfo (after_app (handleGenerateMessage net st d)) =
         Some "Failed to generate message. Check console." /\
       console (after_app (handleGenerateMessage net st d)) =
         console st ++ [LogError "Gemini API call failed:" (exn_name error)]))).
Proof.
  intros Htyped. unfold handleGenerateMessage. rewrite Htyped. cbn [trim_receiver].
  split; [by intros ->|]. intros Hprompt.
  destruct (trim typed) as [|c t] eqn:Htrim; [done|]. cbn [non_empty negb].
  destruct (first_candidate net) as [text|error] eqn:Hfirst.
  - repeat (split; [reflexivity|]). left.
    unfold first_candidate in Hfirst.
    destruct net as [ok [reply|]|e]; try discriminate.
    destruct (candidate_text reply) as [text'|e'] eqn:Hcandidate; [|discriminate].
    rewrite bind_Ok in Hfirst. destruct (to_boolean text') eqn:Htruthy; [|discriminate].
    injection Hfirst as <-. exists ok, reply, text'. by repeat split.
  - repeat (split; [reflexivity|]). right. exists error. by repeat split.
Qed.

Lemma bullet_lines_readable number_text (entries : list JValue) :
  Forall (fun e => readable e = true) entries ->
  bullet_lines number_text entries =
  Ok (map (fun msg => "- " +:+ to_string number_text (record_message msg)) entries).
Proof.
  induction 1 as [|msg entries Hmsg Hentries IH]; [reflexivity|].
  cbn [bullet_lines map]. rewrite (get_prop_readable msg "message") by assumption.
  rewrite bind_Ok, IH, bind_Ok. reflexivity.
Qed.

(** X10. [handleSummarize] over a history of readable entries.  With an
    empty history nothing happens.  Otherwise one request is sent whose
    prompt lists the entries in the order of the history, one line
    "- message" each; the busy flag is off when the handler is over and
    the history is untouched, with one of two results: the text of the
    first candidate of the reply is truthy, then it becomes the summary
    and the summary window is opened, with no error reported; or summary
    and window stay as they were and "Failed to summarize messages. Check
    console." is reported. *)
Theorem summarize_outcomes (number_text : spec_float -> string) (net : Reply)
    (st : AppState) (d : Draft) (entries : list JValue) :
  messages st = JArray entries ->
  (entries = [] -> handleSummarize number_text net st d = mkHandled st d [] None) /\
  (entries <> [] -> Forall (fun e => readable e = true) entries ->
   uncaught (handleSummarize number_text net st d) = None /\
   sent (handleSummarize number_text net st d) =
     [ask (summary_prompt
        (join_with (String newline "")
           (map (fun msg => "- " +:+ to_string number_text (record_message msg))
                entries)))] /\
   isGenerating (after_draft (handleSummarize number_text net st d)) = false /\
   newMessage (after_draft (handleSummarize number_text net st d)) = newMessage d /\
   messages (after_app (handleSummarize number_text net st d)) = messages st /\
   ((exists ok reply text,
       net = Replies ok (Some reply) /\ candidate_text reply = Ok text /\
       to_boolean text = true /\
       summary (after_draft (handleSummarize number_text net st d)) = text /\
       isSummaryModalOpen (after_draft (handleSummarize number_text net st d)) = true /\
       errorInfo (after_app (handleSummarize number_text net st d)) = None) \/
    (exists error,
       first_candidate net = Throw error /\
       summary (after_draft (handleSummarize number_text net st d)) = summary d /\
       isSummaryModalOpen (after_draft (handleSummarize number_text net st d)) =
         isSummaryModalOpen d /\
       errorInfo (after_app (handleSummarize number_text net st d)) =
         Some "Failed to summarize messages. Check console."))).
Proof.
  intros Hm. unfold handleSummarize. rewrite Hm. cbn [length_is_zero].
  split; [by intros ->|]. intros Hne Hreadable.
  destruct entries as [|msg entries']; [done|].
  unfold messages_text. rewrite (bullet_lines_readable _ _ Hreadable), bind_Ok.
  destruct (first_candidate net) as [text|error] eqn:Hfirst.
  - repeat (split; [first [reflexivity | exact Hm]|]). left.
    unfold first_candidate in Hfirst.
    destruct net as [ok [reply|]|e]; try discriminate.
    destruct (candidate_text reply) as [text'|e'] eqn:Hcandidate; [|discriminate].
    rewrite bind_Ok in Hfirst. destruct (to_boolean text') eqn:Htruthy; [|discriminate].
    injection Hfirst as <-. exists ok, reply, text'. by repeat split.
  - repeat (split; [first [reflexivity | exact Hm]|]). right. exists error. by repeat split.
Qed.

(** X11. [handleSummarize] sets the busy flag before it builds the prompt
    outside its [try].  When the history is not an array and does not
    count as empty, or is an array that holds [null], building the prompt
    throws: the exception escapes the handler, no request is sent, and
    the busy flag stays on. *)
Theorem summarize_leaves_busy_flag (number_text : spec_float -> string)
    (net : Reply) (st : AppState) (d : Draft) :
  ((forall entries, messages st <> JArray entries) /\
   length_is_zero (messages st) = Ok false) \/
  (exists before after, messages st = JArray (before ++ JNull :: after)) ->
  uncaught (handleSummarize number_text net st d) <> None /\
  sent (handleSummarize number_text net st d) = [] /\
  isGenerating (after_draft (handleSummarize number_text net st d)) = true.
Proof.
  intros [[Hnot Hlen]|(before & after & Hm)]; unfold handleSummarize.
  - rewrite Hlen. destruct (messages st) eqn:Hv; try done.
    by destruct (Hnot items).
  - rewrite Hm. cbn [length_is_zero].
    assert (Hthrow : exists e, bullet_lines number_text (before ++ JNull :: after) = Throw e).
    { clear Hm. induction before as [|x before IH].
      - eexists. reflexivity.
      - destruct IH as [e IH]. cbn [app bullet_lines].
        destruct (get_prop x "message") as [body|e']; [|by eexists].
        rewrite bind_Ok, IH. by eexists. }
    destruct Hthrow as [e Hthrow]. unfold messages_text. rewrite Hthrow.
    by destruct before.
Qed.

End Assistant.

Lemma generate_message_outcomes_witness :
  let d := mkDraft "" (JString "coffee is ready") false (JString "") false in
  let reply := JObject [("candidates",
     JArray [JObject [("content",
       JObject [("parts", JArray [JObject [("text", JString "Your coffee is ready!")]])])]])] in
  newMessage (after_draft (@handleGenerateMessage Sample.sample_platform
     (Replies false (Some reply)) Sample.empty_app d)) = JString "Your coffee is ready!" /\
  isGenerating (after_draft (@handleGenerateMessage Sample.sample_platform
     (Replies true None) Sample.empty_app d)) = false.
Proof.
  cbv zeta. split.
  - match goal with
    | |- newMessage (after_draft (handleGenerateMessage ?net ?st ?d)) = _ =>
        pose proof (@generate_message_outcomes Sample.sample_platform net st d
                      "coffee is ready" eq_refl) as [_ Hrun]
    end.
    destruct Hrun as (_ & _ & _ & _ & _ & Hcases); [discriminate|].
    destruct Hcases as [(ok & reply & text & Hnet & Htext & _ & -> & _)
                       |(error & Hfirst & _)].
    + injection Hnet as _ <-. by injection Htext as <-.
    + discriminate Hfirst.
  - match goal with
    | |- isGenerating (after_draft (handleGenerateMessage ?net ?st ?d)) = _ =>
        pose proof (@generate_message_outcomes Sample.sample_platform net st d
                      "coffee is ready" eq_refl) as [_ Hrun]
    end.
    by destruct Hrun as (_ & _ & Hbusy & _); [discriminate|].
Defined.

Lemma summarize_outcomes_witness :
  let st := set_messages (JArray [Sample.event "2" "ho"; Sample.event "1" "hi"])
                         Sample.empty_app in
  let nl := String newline "" in
  messages st = JArray [Sample.event "2" "ho"; Sample.event "1" "hi"] /\
  sent (@handleSummarize Sample.sample_platform Sample.number_text
          (Rejects (plain_error "offline")) st empty_draft) =
    [@ask Sample.sample_platform (summary_prompt ("- ho" +:+ nl +:+ "- hi"))] /\
  isGenerating (after_draft (@handleSummarize Sample.sample_platform Sample.number_text
          (Rejects (plain_error "offline")) st empty_draft)) = false.
Proof.
  cbv zeta.
  destruct (@summarize_outcomes Sample.sample_platform Sample.number_text
              (Rejects (plain_error "offline"))
              (set_messages (JArray [Sample.event "2" "ho"; Sample.event "1" "hi"])
                            Sample.empty_app)
              empty_draft [Sample.event "2" "ho"; Sample.event "1" "hi"] eq_refl)
    as [_ Hrun].
  destruct Hrun as (_ & Hsent & Hbusy & _); [discriminate | repeat constructor |].
  split; [reflexivity|]. split; [exact Hsent | exact Hbusy].
Defined.

Lemma summarize_leaves_busy_flag_witness :
  let st := set_messages (JObject []) Sample.empty_app in
  (forall entries, messages st <> JArray entries) /\
  length_is_zero (messages st) = Ok false /\
  isGenerating (after_draft (@handleSummarize Sample.sample_platform Sample.number_text
          (Replies true None) st empty_draft)) = true.
Proof.
  cbv zeta.
  assert (Hnot : forall entries,
            messages (set_messages (JObject []) Sample.empty_app) <> JArray entries)
    by (intros entries; discriminate).
  split; [exact Hnot|]. split; [reflexivity|].
  by destruct (@summarize_leaves_busy_flag Sample.sample_platform Sample.number_text
                 (Replies true None) (set_messages (JObject []) Sample.empty_app)
                 empty_draft (or_introl (conj Hnot eq_refl))) as (_ & _ & Hbusy).
Defined.

(* ================================================================== *)
(** * What the stream leaves alone *)
(* ================================================================== *)

Import Laws.

Lemma loop_frame_refl topic st : loop_frame topic st st.
Proof. by repeat split. Qed.

Lemma loop_frame_trans topic st1 st2 st3 :
  loop_frame topic st1 st2 -> loop_frame topic st2 st3 -> loop_frame topic st1 st3.
Proof.
  intros (H1 & H2 & H3 & H4 & H5 & H6 & H7) (G1 & G2 & G3 & G4 & G5 & G6 & G7).
  repeat split; try congruence. intros key Hkey. by rewrite G7, H7.
Qed.

Lemma stream_frame_refl topic st : stream_frame topic st st.
Proof. split; [apply loop_frame_refl | by split]. Qed.

Lemma stream_frame_trans topic st1 st2 st3 :
  stream_frame topic st1 st2 -> stream_frame topic st2 st3 -> stream_frame topic st1 st3.
Proof.
  intros (H1 & H2 & H3) (G1 & G2 & G3).
  split; [by eapply loop_frame_trans|]. split; congruence.
Qed.

Section Frames.
Context `{Platform}.

(** The notification step shows nothing or the notification of the
    record, and touches nothing else. *)
Lemma show_notification_cases topic r st st' :
  show_notification topic r st = Ok st' ->
  st' = st \/ st' = notify (notification_for topic r) st.
Proof.
  unfold show_notification.
  destruct (String.eqb (permission st) "granted"); [|intros [= <-]; by left].
  destruct (readable r) eqn:Hr; [|by destruct r].
  rewrite (get_prop_readable r "message"), bind_Ok by assumption.
  fold (record_message r).
  destruct (to_boolean (record_message r)); [|intros [= <-]; by left].
  rewrite (get_prop_readable r "title"), bind_Ok by assumption.
  fold (record_title r). intros [= <-]. by right.
Qed.

(** The updater returns the state it was given, or the state with the
    record in front, the history stored, and at most one notification
    more. *)
Lemma add_message_cases topic r st st' :
  add_message topic r st = Ok st' ->
  st' = st \/
  exists prev,
    messages st = JArray prev /\
    (st' = set_messages (JArray (take 50 (r :: prev)))
             (setItem (history_key topic)
                (JSON_stringify (JArray (take 50 (r :: prev)))) st) \/
     st' = set_messages (JArray (take 50 (r :: prev)))
             (notify (notification_for topic r)
                (setItem (history_key topic)
                   (JSON_stringify (JArray (take 50 (r :: prev)))) st))).
Proof.
  unfold add_message. destruct (messages st) as [| | | | |prev|] eqn:Hm; try discriminate.
  destruct (array_some (same_id r) prev) as [[|]|e];
    [intros [= <-]; by left| |discriminate].
  rewrite bind_Ok. cbv beta iota zeta.
  destruct (show_notification topic r _) as [st2|e] eqn:Hshow; [|discriminate].
  rewrite bind_Ok. intros [= <-]. right. exists prev. split; [reflexivity|].
  apply show_notification_cases in Hshow as [->| ->]; [by left | by right].
Qed.

Lemma add_message_frame topic r st st' :
  add_message topic r st = Ok st' -> stream_frame topic st st'.
Proof.
  intros Hadd. apply add_message_cases in Hadd as [->|(prev & _ & [->| ->])];
    [apply stream_frame_refl| |];
    (split; [|by split]); repeat split; intros key Hkey;
    cbn; by rewrite lookup_insert_ne.
Qed.

Lemma process_line_frame topic line st st' :
  process_line topic line st = Ok st' -> stream_frame topic st st'.
Proof.
  unfold process_line. destruct (String.eqb (trim line) "").
  { intros [= <-]. apply stream_frame_refl. }
  destruct (decode_line line) as [[r|]|e].
  - apply add_message_frame.
  - intros [= <-]. apply stream_frame_refl.
  - intros [= <-]. by repeat split.
Qed.

Lemma process_lines_frame topic (lines : list string) : forall st st',
  process_lines topic lines st = Ok st' -> stream_frame topic st st'.
Proof.
  induction lines as [|line lines IH]; intros st st' Hrun.
  - cbn in Hrun. injection Hrun as <-. apply stream_frame_refl.
  - cbn [process_lines] in Hrun.
    destruct (process_line topic line st) as [st1|e] eqn:Hstep; [|discriminate].
    rewrite bind_Ok in Hrun. eapply stream_frame_trans.
    + by eapply process_line_frame.
    + by apply IH.
Qed.

(** X12. Processing the lines of the stream of a topic touches nothing
    but the history of that topic, the console and the notifications:
    the connection status, the error report, the list of recent topics
    and the requests issued stay as they were, and so does every entry
    of the storage other than the stored history of the topic, among
    them the stored history of every other topic. *)
Theorem stream_keeps_to_its_topic topic (lines : list string) (st st' : AppState) :
  process_lines topic lines st = Ok st' ->
  stream_frame topic st st' /\
  (forall other, other <> topic ->
     getItem (history_key other) st' = getItem (history_key other) st) /\
  getItem previous_topics_key st' = getItem previous_topics_key st /\
  getItem latest_topic_key st' = getItem latest_topic_key st.
Proof.
  intros Hrun. pose proof (process_lines_frame _ _ _ _ Hrun) as Hframe.
  split; [exact Hframe|].
  destruct Hframe as ((_ & _ & _ & _ & _ & _ & Hkeys) & _).
  split; [|split].
  - intros other Hother. apply Hkeys. intros Heq. by apply history_key_inj in Heq.
  - by apply Hkeys.
  - by apply Hkeys.
Qed.

End Frames.

Lemma stream_keeps_to_its_topic_witness :
  let st := set_localStorage {[ history_key "builds" := "[]" ]} Sample.empty_app in
  exists st',
    @process_lines Sample.sample_platform "alerts"
      [Sample.stringify (Sample.event "1" "hi")] st = Ok st' /\
    getItem (history_key "builds") st' = Some "[]" /\
    connected st' = false.
Proof.
  cbv zeta. eexists. split; [vm_compute; reflexivity|].
  match goal with
  | |- getItem _ ?s' = _ /\ _ =>
      pose proof (@stream_keeps_to_its_topic Sample.sample_platform "alerts"
                    [Sample.stringify (Sample.event "1" "hi")]
                    (set_localStorage {[ history_key "builds" := "[]" ]} Sample.empty_app)
                    s') as Hkeep
  end.
  destruct Hkeep as ((_ & Hconn & _) & Hother & _); [vm_compute; reflexivity|].
  split.
  - rewrite (Hother "builds") by discriminate. reflexivity.
  - rewrite Hconn. reflexivity.
Defined.

(* ================================================================== *)
(** * The stored history, notifications and unfinished lines *)
(* ================================================================== *)

Section StoredHistory.
Context `{Platform}.

Lemma add_message_mirror topic r st st' :
  add_message topic r st = Ok st' -> st' = st \/ mirrored topic st'.
Proof.
  intros Hadd. apply add_message_cases in Hadd as [->|(prev & _ & [->| ->])];
    [by left| |]; right; apply lookup_insert_eq.
Qed.

Lemma process_line_mirror topic line st st' :
  process_line topic line st = Ok st' ->
  (messages st' = messages st /\
   getItem (history_key topic) st' = getItem (history_key topic) st) \/
  mirrored topic st'.
Proof.
  unfold process_line. destruct (String.eqb (trim line) "").
  { intros [= <-]. by left. }
  destruct (decode_line line) as [[r|]|e].
  - intros Hadd. apply add_message_mirror in Hadd as [->|Hmirror]; [by left | by right].
  - intros [= <-]. by left.
  - intros [= <-]. by left.
Qed.

Lemma process_lines_mirror topic (lines : list string) : forall st st',
  process_lines topic lines st = Ok st' ->
  (messages st' = messages st /\
   getItem (history_key topic) st' = getItem (history_key topic) st) \/
  mirrored topic st'.
Proof.
  induction lines as [|line lines IH]; intros st st' Hrun.
  - cbn in Hrun. injection Hrun as <-. by left.
  - cbn [process_lines] in Hrun.
    destruct (process_line topic line st) as [st1|e] eqn:Hstep; [|discriminate].
    rewrite bind_Ok in Hrun.
    destruct (IH _ _ Hrun) as [[Hm Hs]|Hmirror]; [|by right].
    destruct (process_line_mirror _ _ _ _ Hstep) as [[Hm1 Hs1]|Hmirror1].
    + left. split; congruence.
    + right. unfold mirrored in *. by rewrite Hs, Hm.
Qed.

(** X13. Whatever lines the stream of a topic delivers, afterwards
    either the history in memory and the entry stored for the topic are
    both as they were, or the entry stored for the topic is the
    serialisation of the history in memory: memory never runs ahead of
    the storage. *)
Theorem storage_follows_history topic (lines : list string) (st st' : AppState) :
  process_lines topic lines st = Ok st' ->
  (messages st' = messages st /\
   getItem (history_key topic) st' = getItem (history_key topic) st) \/
  getItem (history_key topic) st' = Some (JSON_stringify (messages st')).
Proof. apply process_lines_mirror. Qed.

(** X14. Once the stream of a topic has changed the history, loading the
    history of that topic over the same storage gives the very same
    history back, whatever is in memory at that time, provided
    [JSON.parse] reads back what [JSON.stringify] wrote for it. *)
Theorem reload_restores_history topic (lines : list string) (st st' st2 : AppState) :
  process_lines topic lines st = Ok st' ->
  messages st' <> messages st ->
  non_empty (JSON_stringify (messages st')) = true ->
  JSON_parse (JSON_stringify (messages st')) = Some (messages st') ->
  localStorage st2 = localStorage st' ->
  messages (load_history topic st2) = messages st'.
Proof.
  intros Hrun Hchanged Hnonempty Hcodec Hstore.
  destruct (process_lines_mirror _ _ _ _ Hrun) as [[Hm _]|Hmirror]; [done|].
  rewrite load_history_messages. unfold getItem, mirrored, getItem in *.
  by rewrite Hstore, Hmirror, Hnonempty, Hcodec.
Qed.

Lemma show_notification_valid topic r st :
  valid_record r = true ->
  show_notification topic r st =
  Ok (if String.eqb (permission st) "granted"
      then notify (notification_for topic r) st else st).
Proof.
  intros Hvalid. pose proof (valid_record_readable r Hvalid) as Hr.
  unfold show_notification. destruct (String.eqb (permission st) "granted"); [|reflexivity].
  rewrite (get_prop_readable r "message"), bind_Ok by assumption.
  fold (record_message r). rewrite (valid_record_message r Hvalid).
  by rewrite (get_prop_readable r "title"), bind_Ok by assumption.
Qed.

(** X15. A line that decodes to a valid record whose identifier is not in
    the history shows exactly one desktop notification when the
    permission is "granted", and none otherwise; its body is the message
    of the record and its title the title of the record or, without one,
    "New message on topic: " followed by the topic.  A record whose
    identifier is in the history shows none. *)
Theorem notification_per_new_record topic (line : string) (r : JValue)
    (st : AppState) (prev : list JValue) :
  decodes_to line r ->
  valid_record r = true ->
  messages st = JArray prev ->
  Forall (fun e => readable e = true) prev ->
  (Forall (fun msg => differ msg r) prev ->
   exists st', process_line topic line st = Ok st' /\
     notifications st' =
       notifications st ++
       (if String.eqb (permission st) "granted" then [notification_for topic r] else [])) /\
  (Exists (fun msg => strict_equals (record_id msg) (record_id r) = true) prev ->
   exists st', process_line topic line st = Ok st' /\
     notifications st' = notifications st).
Proof.
  intros Hline Hvalid Hm Hprev.
  rewrite (process_line_valid topic line r) by assumption.
  pose proof (valid_record_readable r Hvalid) as Hr. split.
  - intros Hfresh. unfold add_message. rewrite Hm.
    rewrite array_some_fresh, bind_Ok by assumption. cbv beta iota zeta.
    rewrite show_notification_valid, bind_Ok by assumption.
    eexists. split; [reflexivity|].
    cbn [setItem set_localStorage permission].
    destruct (String.eqb (permission st) "granted"); cbn; [reflexivity|].
    by rewrite app_nil_r.
  - intros Hdup. exists st. split; [|reflexivity].
    apply (add_message_duplicate topic r st prev); try assumption.
    apply Exists_exists in Hdup as (m & Hin & Heq). eauto.
Qed.

(** X16. A record takes effect when its newline arrives and not before.
    A chunk without newline is only kept in the buffer; if the stream
    ends there, the text in the buffer is dropped without being decoded,
    logged or stored, even when it is a whole record; if a newline
    follows, the line is processed. *)
Theorem record_waits_for_newline topic (text : string) (rest : list ReadResult)
    (st : AppState) :
  single_line text ->
  read_loop topic (ReadChunk text :: rest) "" st = read_loop topic rest text st /\
  (forall signal_aborted, exists st',
     read_loop topic [ReadChunk text; ReadDone signal_aborted] "" st = Break st' /\
     messages st' = messages st /\ localStorage st' = localStorage st /\
     console st' = console st /\ notifications st' = notifications st) /\
  read_loop topic (ReadChunk text :: ReadChunk (String newline "") :: rest) "" st =
    match process_line topic text st with
    | Ok st' => read_loop topic rest "" st'
    | Throw e => RenderError e
    end.
Proof.
  intros Hline.
  assert (Hfeed : feed "" text = ([], text)).
  { unfold feed, pop. rewrite append_empty_l. unfold single_line in Hline.
    by rewrite Hline. }
  assert (Hnext : feed text (String newline "") = ([text], "")).
  { unfold feed, pop. by rewrite (split_line text "" Hline). }
  split; [|split].
  - cbn [read_loop]. by rewrite Hfeed.
  - intros flag. cbn [read_loop]. rewrite Hfeed. cbn [process_lines].
    destruct flag; eexists; (split; [reflexivity|]); by repeat split.
  - cbn [read_loop]. rewrite Hfeed. cbn [process_lines]. rewrite Hnext.
    cbn [process_lines]. destruct (process_line topic text st); reflexivity.
Qed.

(** X17. Blank lines of the stream have no effect: processing a sequence
    of lines is processing its lines that are not blank. *)
Theorem blank_lines_are_skipped topic (lines : list string) (st : AppState) :
  process_lines topic lines st =
  process_lines topic (filter (fun line => String.eqb (trim line) "" = false) lines) st.
Proof.
  revert st. induction lines as [|line lines IH]; intros st; [reflexivity|].
  destruct (String.eqb (trim line) "") eqn:Hblank.
  - rewrite filter_cons_False by congruence. cbn [process_lines].
    unfold process_line at 1. rewrite Hblank, bind_Ok. apply IH.
  - rewrite filter_cons_True by assumption. cbn [process_lines].
    destruct (process_line topic line st); [|reflexivity]. rewrite !bind_Ok. apply IH.
Qed.

End StoredHistory.

Lemma storage_follows_history_witness :
  exists st',
    @process_lines Sample.sample_platform "alerts"
      [Sample.stringify (Sample.event "1" "hi"); "{not json"] Sample.empty_app = Ok st' /\
    getItem (history_key "alerts") st' = Some (Sample.stringify (messages st')).
Proof.
  eexists. split; [vm_compute; reflexivity|].
  match goal with
  | |- getItem _ ?s' = _ =>
      destruct (@storage_follows_history Sample.sample_platform "alerts"
                  [Sample.stringify (Sample.event "1" "hi"); "{not json"]
                  Sample.empty_app s') as [[Hsame _]|Hmirror];
        [vm_compute; reflexivity | discriminate Hsame | exact Hmirror]
  end.
Defined.

Lemma reload_restores_history_witness :
  let codec := codec_for [Sample.event "1" "hi"; JArray [Sample.event "1" "hi"]] in
  exists st',
    @process_lines codec "alerts" [Sample.stringify (Sample.event "1" "hi")]
      Sample.empty_app = Ok st' /\
    messages st' = JArray [Sample.event "1" "hi"] /\
    messages (@load_history codec "alerts" (set_messages (JArray []) st')) = messages st'.
Proof.
  cbv zeta. eexists. split; [vm_compute; reflexivity|]. split; [reflexivity|].
  match goal with
  | |- messages (load_history _ (set_messages _ ?s')) = _ =>
      apply (@reload_restores_history
               (codec_for [Sample.event "1" "hi"; JArray [Sample.event "1" "hi"]])
               "alerts" [Sample.stringify (Sample.event "1" "hi")] Sample.empty_app s')
  end.
  - vm_compute. reflexivity.
  - discriminate.
  - reflexivity.
  - reflexivity.
  - reflexivity.
Defined.

Lemma notification_per_new_record_witness :
  let st := mkApp (JArray []) true None (JArray []) ∅ "granted" [] [] [] 0 None [] in
  let line := Sample.stringify (Sample.event "1" "hi") in
  exists st',
    @process_line Sample.sample_platform "alerts" line st = Ok st' /\
    notifications st' =
      [Notify (JString "New message on topic: alerts") (JString "hi")].
Proof.
  cbv zeta.
  destruct (@notification_per_new_record Sample.sample_platform "alerts"
              (Sample.stringify (Sample.event "1" "hi")) (Sample.event "1" "hi")
              (mkApp (JArray []) true None (JArray []) ∅ "granted" [] [] [] 0 None [])
              [])
    as [Hfresh _]; [by split | reflexivity | reflexivity | constructor |].
  destruct Hfresh as (st' & Hstep & Hshown); [constructor|].
  exists st'. split; [exact Hstep|]. rewrite Hshown. reflexivity.
Defined.

Lemma record_waits_for_newline_witness :
  let text := Sample.stringify (Sample.event "1" "hi") in
  single_line text /\
  exists st',
    @read_loop Sample.sample_platform "alerts" [ReadChunk text; ReadDone false] ""
      Sample.empty_app = Break st' /\
    messages st' = JArray [].
Proof.
  cbv zeta.
  assert (Hline : single_line (Sample.stringify (Sample.event "1" "hi"))) by reflexivity.
  split; [exact Hline|].
  destruct (@record_waits_for_newline Sample.sample_platform "alerts" _ []
              Sample.empty_app Hline) as (_ & Hdropped & _).
  destruct (Hdropped false) as (st' & Hloop & Hm & _).
  exists st'. split; [exact Hloop | exact Hm].
Defined.

(* ================================================================== *)
(** * Opening a subscription and its abort controllers *)
(* ================================================================== *)

Lemma loop_frame_fields topic st st' :
  previousTopics st' = previousTopics st ->
  requests st' = requests st ->
  controllers st' = controllers st ->
  abortControllerRef st' = abortControllerRef st ->
  aborted st' = aborted st ->
  permission st' = permission st ->
  localStorage st' = localStorage st ->
  loop_frame topic st st'.
Proof. intros. repeat split; try assumption. intros key _. congruence. Qed.

Section Opening.
Context `{Platform}.

Lemma read_loop_frame topic (reads : list ReadResult) : forall buffer st,
  match read_loop topic reads buffer st with
  | Awaiting _ st' | Break st' | Raised _ st' => loop_frame topic st st'
  | RenderError _ => True
  end.
Proof.
  induction reads as [|[text|flag|error] reads IH]; intros buffer st.
  - apply loop_frame_refl.
  - cbn [read_loop]. destruct (feed buffer text) as [lines buffer'].
    destruct (process_lines topic lines st) as [st1|e] eqn:Hlines; [|exact I].
    apply process_lines_frame in Hlines as [Hframe _].
    specialize (IH buffer' st1).
    destruct (read_loop topic reads buffer' st1); try exact I;
      by eapply loop_frame_trans.
  - cbn [read_loop]. destruct flag; [apply loop_frame_refl|].
    by apply loop_frame_fields.
  - apply loop_frame_refl.
Qed.

Lemma on_error_frame topic fetchUrl error st :
  loop_frame topic st (on_error fetchUrl error st).
Proof.
  unfold on_error. destruct (negb _); [by apply loop_frame_fields | apply loop_frame_refl].
Qed.

Lemma stream_frame_of_outcome topic fetchUrl (body : list ReadResult) st st' :
  outcome_state (stream topic fetchUrl body st) = Some st' -> loop_frame topic st st'.
Proof.
  unfold stream.
  set (st2 := log _ (set_errorInfo None (set_connected true st))).
  assert (Hstart : loop_frame topic st st2).
  { by apply loop_frame_fields. }
  pose proof (read_loop_frame topic body "" st2) as Hloop.
  destruct (read_loop topic body "" st2) as [b s|s|e s|e]; cbn [outcome_state];
    intros [= <-].
  - by eapply loop_frame_trans.
  - by eapply loop_frame_trans.
  - eapply loop_frame_trans; [exact Hstart|].
    eapply loop_frame_trans; [exact Hloop | apply on_error_frame].
Qed.

Lemma load_history_fields topic st :
  previousTopics (load_history topic st) = previousTopics st /\
  requests (load_history topic st) = requests st /\
  controllers (load_history topic st) = controllers st /\
  abortControllerRef (load_history topic st) = abortControllerRef st /\
  aborted (load_history topic st) = aborted st /\
  localStorage (load_history topic st) = localStorage st /\
  connected (load_history topic st) = connected st /\
  errorInfo (load_history topic st) = errorInfo st.
Proof.
  unfold load_history. destruct (read_history topic st); cbn; by repeat split.
Qed.

(** The state in which [subscribe] issues its request. *)
Lemma subscribe_frame server topic (net : FetchResult) st st' :
  trim topic <> "" ->
  outcome_state (subscribe server topic net st) = Some st' ->
  loop_frame topic
    (request (fetch_url server topic) (new_controller (load_history topic (abort_current st))))
    st'.
Proof.
  intros Htopic. unfold subscribe.
  destruct (trim topic) as [|c t]; [done|]. cbn [non_empty negb].
  destruct net as [error|[|] status body]; cbn [outcome_state].
  - intros [= <-]. apply on_error_frame.
  - apply stream_frame_of_outcome.
  - intros [= <-]. apply on_error_frame.
Qed.

(** X18. Abort controllers.  A freshly mounted component has none: no
    current one, none aborted, and no request issued.  After
    any call of [subscribe] that leaves the component rendering, every
    controller created before the call has been aborted; for a topic
    that is not blank exactly one request has been issued, to the
    address of the topic, and the controller created for it is the
    current one and has not been aborted, so that at most one connection
    is live; for a blank topic no request has been issued and no
    connection is left live. *)
Theorem one_live_connection server topic (net : FetchResult) (st st' : AppState)
    (store : gmap string string) (perm : string) :
  (controllers_ok (mount store perm) /\
   abortControllerRef (mount store perm) = None /\
   aborted (mount store perm) = [] /\
   requests (mount store perm) = []) /\
  (controllers_ok st ->
   outcome_state (subscribe server topic net st) = Some st' ->
   controllers_ok st' /\
   (forall c, c < controllers st -> c ∈ aborted st') /\
   (trim topic <> "" ->
    abortControllerRef st' = Some (controllers st) /\
    (controllers st ∉ aborted st') /\
    requests st' = requests st ++ [fetch_url server topic]) /\
   (trim topic = "" -> requests st' = requests st)).
Proof.
  split.
  { unfold mount. destruct (initial_previousTopics store).
    split; [|by repeat split].
    repeat split; cbn; intros c Hc; try done; [by apply elem_of_nil in Hc | lia]. }
  intros (Href & Haborted & Hall) Hout.
  assert (Hbefore : forall c, c < controllers st -> c ∈ aborted (abort_current st)).
  { intros c Hc. unfold abort_current.
    destruct (abortControllerRef st) as [cur|] eqn:Hcur; cbn [aborted].
    - destruct (Hall c Hc) as [[= ->]|Hin]; [left | by right].
    - by destruct (Hall c Hc). }
  assert (Hnew : forall c, c ∈ aborted (abort_current st) -> c < controllers st).
  { intros c. unfold abort_current.
    destruct (abortControllerRef st) as [cur|] eqn:Hcur; cbn [aborted]; [|by apply Haborted].
    intros [->|Hin]%elem_of_cons; [by apply Href | by apply Haborted]. }
  assert (Hsame : controllers (abort_current st) = controllers st /\
                  abortControllerRef (abort_current st) = abortControllerRef st /\
                  requests (abort_current st) = requests st).
  { unfold abort_current. destruct (abortControllerRef st) eqn:Hcurrent; cbn;
      rewrite ?Hcurrent; by repeat split. }
  destruct Hsame as (Ac & Ar & Aq).
  destruct (decide (trim topic = "")) as [Hblank|Htopic].
  - unfold subscribe in Hout. rewrite Hblank in Hout. cbn in Hout. injection Hout as <-.
    unfold controllers_ok.
    cbn [controllers abortControllerRef aborted requests set_errorInfo set_connected].
    rewrite Ac, Ar, Aq.
    split; [|by repeat split].
    repeat split; [exact Href | exact Hnew |]. intros c Hc'. right. by apply Hbefore.
  - pose proof (subscribe_frame _ _ _ _ _ Htopic Hout) as (_ & Hq & Hc & Hr & Ha & _).
    pose proof (load_history_fields topic (abort_current st))
      as (_ & Lq & Lc & Lr & La & _).
    cbn [request new_controller requests controllers abortControllerRef aborted] in *.
    rewrite Lc, Ac in Hc, Hr. rewrite La in Ha. rewrite Lq, Aq in Hq.
    assert (Hfresh : controllers st ∉ aborted st').
    { rewrite Ha. intros Hin. apply Hnew in Hin. lia. }
    split; [|split; [|split]].
    + repeat split.
      * intros c. rewrite Hr, Hc. intros [= <-]. lia.
      * intros c. rewrite Ha, Hc. intros Hin. apply Hnew in Hin. lia.
      * intros c. rewrite Hc, Hr, Ha. intros Hlt.
        destruct (decide (c = controllers st)) as [->|Hne]; [by left|].
        right. apply Hbefore. lia.
    + intros c Hlt. rewrite Ha. by apply Hbefore.
    + intros _. by repeat split.
    + done.
Qed.

(** X19. What opening the connection of a topic that is not blank gives.
    In each case the history in memory is replaced by what is stored for
    the topic (the empty history if nothing is stored or it does not
    parse), whatever was in memory before.  An accepted connection
    reports connected and clears the error report.  A reply that is not
    ok, and a request that fails other than by an abort, report
    "Connection failed. Check console." and disconnected, without
    reading the body.  A request that is aborted reports nothing. *)
Theorem opening_outcomes server topic (st : AppState) :
  trim topic <> "" ->
  (forall status, exists st',
     subscribe server topic (FetchResponse true status []) st = Streaming "" st' /\
     connected st' = true /\ errorInfo st' = None /\
     messages st' = messages (load_history topic st)) /\
  (forall status body, exists st',
     subscribe server topic (FetchResponse false status body) st = Returned st' /\
     connected st' = false /\
     errorInfo st' = Some "Connection failed. Check console." /\
     messages st' = messages (load_history topic st)) /\
  (forall error, String.eqb (exn_name error) "AbortError" = false -> exists st',
     subscribe server topic (FetchRejects error) st = Returned st' /\
     connected st' = false /\
     errorInfo st' = Some "Connection failed. Check console." /\
     messages st' = messages (load_history topic st)) /\
  (forall error, String.eqb (exn_name error) "AbortError" = true -> exists st',
     subscribe server topic (FetchRejects error) st = Returned st' /\
     connected st' = connected st /\ errorInfo st' = errorInfo st /\
     messages st' = messages (load_history topic st)) /\
  (forall v, messages (load_history topic (set_messages v st)) =
             messages (load_history topic st)).
Proof.
  intros Htopic.
  assert (Hload : messages (load_history topic (abort_current st)) =
                  messages (load_history topic st)).
  { rewrite !load_history_messages. unfold getItem, abort_current.
    by destruct (abortControllerRef st). }
  assert (Hsame : connected (abort_current st) = connected st /\
                  errorInfo (abort_current st) = errorInfo st).
  { unfold abort_current. destruct (abortControllerRef st) eqn:Hcurrent; cbn; rewrite ?Hcurrent; by repeat split. }
  pose proof (load_history_fields topic (abort_current st))
    as (_ & _ & _ & _ & _ & _ & Lconn & Lerr).
  unfold subscribe. destruct (trim topic) as [|c t]; [done|]. cbn [non_empty negb].
  split; [|split; [|split; [|split]]].
  - intros status. eexists. split; [reflexivity|]. by repeat split.
  - intros status body. eexists. split; [reflexivity|]. by repeat split.
  - intros error Herror. eexists. split; [reflexivity|].
    unfold on_error. rewrite Herror. by repeat split.
  - intros error Herror. eexists. split; [reflexivity|].
    unfold on_error. rewrite Herror. cbn [negb].
    cbn [request new_controller connected errorInfo messages].
    destruct Hsame as [-> ->] in Lconn, Lerr. by repeat split.
  - intros v. by rewrite !load_history_messages.
Qed.

End Opening.

Lemma one_live_connection_witness :
  exists st1 st2,
    outcome_state (@subscribe Sample.sample_platform "https://ntfy.sh" "alerts"
      (FetchResponse true "200" []) Sample.empty_app) = Some st1 /\
    outcome_state (@subscribe Sample.sample_platform "https://ntfy.sh" "builds"
      (FetchResponse true "200" []) st1) = Some st2 /\
    abortControllerRef st2 = Some 1 /\ (0 ∈ aborted st2) /\ (1 ∉ aborted st2).
Proof.
  eexists. eexists. split; [vm_compute; reflexivity|]. split; [vm_compute; reflexivity|].
  match goal with
  | |- abortControllerRef ?s2 = _ /\ _ =>
      match type of s2 with
      | _ => pose proof (fun st1 Hok Hout =>
               proj2 (@one_live_connection Sample.sample_platform "https://ntfy.sh" "builds"
                        (FetchResponse true "200" []) st1 s2 ∅ "default") Hok Hout)
               as Hlive
      end
  end.
  edestruct Hlive as (_ & Hbefore & Hcurrent & _).
  - instantiate (1 := mkApp (JArray []) true None (JArray []) ∅ "default"
      [LogInfo "Subscribed to https://ntfy.sh/alerts/json using fetch streaming."]
      [] ["https://ntfy.sh/alerts/json"] 1 (Some 0) []).
    repeat split; cbn; intros c Hc.
    + injection Hc as <-. lia.
    + by apply elem_of_nil in Hc.
    + left. f_equal. lia.
  - vm_compute. reflexivity.
  - destruct Hcurrent as (Href & Hfresh & _); [discriminate|].
    split; [exact Href|]. split; [apply Hbefore; cbn; lia | exact Hfresh].
Defined.

Lemma opening_outcomes_witness :
  trim "alerts" <> "" /\
  exists st',
    @subscribe Sample.sample_platform "https://ntfy.sh" "alerts"
      (FetchResponse false "404 Not Found" []) Sample.app_over_twice = Returned st' /\
    connected st' = false /\
    messages st' = Sample.twice.
Proof.
  assert (Htopic : trim "alerts" <> "") by discriminate.
  split; [exact Htopic|].
  destruct (@opening_outcomes Sample.sample_platform "https://ntfy.sh" "alerts"
              Sample.app_over_twice Htopic) as (_ & Hrefused & _).
  destruct (Hrefused "404 Not Found" []) as (st' & Hsub & Hconn & _ & Hm).
  exists st'. split; [exact Hsub|]. split; [exact Hconn|]. rewrite Hm. reflexivity.
Defined.

(* ================================================================== *)
(** * The list of recent topics across removals and reloads *)
(* ================================================================== *)

Lemma filter_all {A} (P : A -> Prop) `{forall x, Decision (P x)} (l : list A) :
  Forall P l -> filter P l = l.
Proof.
  induction 1 as [|x l Hx Hl IH]; [reflexivity|].
  rewrite filter_cons_True by assumption. by rewrite IH.
Qed.

Lemma append_inj_r (x y s : string) : x +:+ s = y +:+ s -> x = y.
Proof.
  revert y. induction x as [|c x IH]; intros y Heq.
  - destruct y as [|d y]; [reflexivity|].
    apply (f_equal String.length) in Heq. rewrite append_empty_l, append_length in Heq.
    cbn [String.length] in Heq. lia.
  - destruct y as [|d y].
    + apply (f_equal String.length) in Heq. rewrite append_empty_l, append_length in Heq.
      cbn [String.length] in Heq. lia.
    + rewrite !append_cons in Heq. injection Heq as -> Heq. f_equal. by apply IH.
Qed.

Section TopicList.
Context `{Platform}.

(** X20. Removing a topic from a list of recent topics that holds strings
    leaves the other entries in their order and no entry equal to the
    topic, and stores the new list; a topic that is not in the list is
    removed without change to the list.  The removal touches neither the
    stored latest topic, nor the history in memory, nor the stored
    history of any topic, the removed one included. *)
Theorem remove_topic_only_unlists (topicToRemove : string) (st : AppState)
    (prev : list string) :
  previousTopics st = JArray (map JString prev) ->
  exists st',
    handleRemoveTopic topicToRemove st = Ok st' /\
    previousTopics st' = JArray (map JString (filter (fun s => s <> topicToRemove) prev)) /\
    (topicToRemove ∉ filter (fun s => s <> topicToRemove) prev) /\
    (topicToRemove ∉ prev -> previousTopics st' = previousTopics st) /\
    getItem previous_topics_key st' = Some (JSON_stringify (previousTopics st')) /\
    getItem latest_topic_key st' = getItem latest_topic_key st /\
    messages st' = messages st /\
    forall topic, getItem (history_key topic) st' = getItem (history_key topic) st.
Proof.
  intros Hprev. unfold handleRemoveTopic. rewrite Hprev, filter_strings.
  eexists. split; [reflexivity|]. split; [reflexivity|].
  split; [intros Hin; by apply list_elem_of_filter in Hin as [? _]|].
  split; [intros Hnotin; cbn; by rewrite filter_absent|].
  split; [apply lookup_insert_eq|].
  split; [by apply lookup_insert_ne|].
  split; [reflexivity|]. intros topic. by apply lookup_insert_ne.
Qed.

(** X21. Using a topic and then removing it from the list does not undo
    the use in general: the list is then the first nine of the other
    topics it held before, so that with ten topics listed the last one
    is lost; it is the list as it was when the topic was not listed and
    at most nine topics were. *)
Theorem use_then_remove (topic : string) (st : AppState) (prev : list string) :
  non_empty (trim topic) = true ->
  previousTopics st = JArray (map JString prev) ->
  exists st1 st2,
    recordTopicUse topic st = Ok st1 /\
    handleRemoveTopic (trim topic) st1 = Ok st2 /\
    previousTopics st2 =
      JArray (map JString (take 9 (filter (fun s => s <> trim topic) prev))) /\
    (trim topic ∉ prev -> length prev <= 9 -> previousTopics st2 = previousTopics st).
Proof.
  intros Hused Hprev.
  destruct (recordTopicUse_array topic st _ Hused Hprev) as (st1 & Hstep & Hprev1 & _).
  rewrite recent_step_strings in Hprev1.
  exists st1. unfold handleRemoveTopic. rewrite Hprev1, filter_strings.
  eexists. split; [exact Hstep|]. split; [reflexivity|].
  assert (Hfilter : filter (fun s => s <> trim topic)
                      (take 10 (trim topic :: filter (fun s => s <> trim topic) prev)) =
                    take 9 (filter (fun s => s <> trim topic) prev)).
  { cbn [take]. rewrite filter_cons_False by (intros Hne; by apply Hne).
    apply filter_all. apply Forall_take. apply List.Forall_forall.
    intros s Hs. apply list_elem_of_In in Hs. by apply list_elem_of_filter in Hs as [? _]. }
  cbn [previousTopics set_previousTopics]. rewrite Hfilter.
  split; [reflexivity|].
  intros Hnotin Hlen. rewrite Hprev, filter_absent by assumption.
  by rewrite take_ge by lia.
Qed.

(** X22. The topic in use survives a reload: after the use of a topic
    that is not blank has been recorded, a component mounted over the
    same storage starts with the trimmed topic as its topic, and with
    the same list of recent topics provided [JSON.parse] reads back what
    [JSON.stringify] wrote for it. *)
Theorem topics_survive_reload (topic : string) (st st' : AppState) (perm : string) :
  non_empty (trim topic) = true ->
  recordTopicUse topic st = Ok st' ->
  initial_topic (localStorage st') = trim topic /\
  (non_empty (JSON_stringify (previousTopics st')) = true ->
   JSON_parse (JSON_stringify (previousTopics st')) = Some (previousTopics st') ->
   previousTopics (mount (localStorage st') perm) = previousTopics st').
Proof.
  intros Hused. unfold recordTopicUse. rewrite Hused. unfold move_to_front.
  destruct (previousTopics (setItem latest_topic_key (trim topic) st)) eqn:Hprev;
    try discriminate.
  intros [= <-]. split.
  - unfold initial_topic. cbn [localStorage set_previousTopics setItem set_localStorage].
    rewrite lookup_insert_ne by discriminate. rewrite lookup_insert_eq. by rewrite Hused.
  - intros Hnonempty Hcodec. rewrite mount_previousTopics.
    unfold initial_previousTopics, read_previousTopics, parse.
    cbn [localStorage set_previousTopics setItem set_localStorage previousTopics] in *.
    rewrite lookup_insert_eq, Hnonempty, Hcodec. reflexivity.
Qed.

(** X23. The history and the stream are addressed by the topic as typed,
    the list of recent topics by the trimmed topic.  For a topic with
    white space around it the two differ: the entry the list offers
    addresses another stored history and another stream, and nothing the
    stream of the topic as typed delivers reaches the history stored
    under the listed name. *)
Theorem padded_topic_is_another_topic server (topic : string) :
  trim topic <> topic ->
  history_key (trim topic) <> history_key topic /\
  fetch_url server (trim topic) <> fetch_url server topic /\
  (forall lines st st',
     process_lines topic lines st = Ok st' ->
     getItem (history_key (trim topic)) st' = getItem (history_key (trim topic)) st) /\
  (forall st prevTopics,
     non_empty (trim topic) = true ->
     previousTopics st = JArray prevTopics ->
     exists st' rest,
       recordTopicUse topic st = Ok st' /\
       previousTopics st' = JArray (JString (trim topic) :: rest)).
Proof.
  intros Hpadded. split; [|split; [|split]].
  - intros Heq. by apply history_key_inj in Heq.
  - unfold fetch_url. intros Heq. apply append_inj_l in Heq.
    apply append_inj_l in Heq. by apply append_inj_r in Heq.
  - intros lines st st' Hrun.
    apply process_lines_frame in Hrun as ((_ & _ & _ & _ & _ & _ & Hkeys) & _).
    apply Hkeys. intros Heq. by apply history_key_inj in Heq.
  - intros st prevTopics Hused Hprev.
    destruct (recordTopicUse_array topic st _ Hused Hprev) as (st' & Hstep & Hprev' & _).
    exists st'. eexists. split; [exact Hstep|]. rewrite Hprev'. reflexivity.
Qed.

End TopicList.

Lemma remove_topic_only_unlists_witness :
  let st := set_localStorage {[ history_key "b" := "[]"; latest_topic_key := "b" ]}
              (set_previousTopics (JArray [JString "a"; JString "b"; JString "c"])
                 Sample.empty_app) in
  exists st',
    @handleRemoveTopic Sample.sample_platform "b" st = Ok st' /\
    previousTopics st' = JArray [JString "a"; JString "c"] /\
    getItem (history_key "b") st' = Some "[]" /\
    getItem latest_topic_key st' = Some "b".
Proof.
  cbv zeta.
  destruct (@remove_topic_only_unlists Sample.sample_platform "b"
              (set_localStorage {[ history_key "b" := "[]"; latest_topic_key := "b" ]}
                 (set_previousTopics (JArray [JString "a"; JString "b"; JString "c"])
                    Sample.empty_app))
              ["a"; "b"; "c"] eq_refl)
    as (st' & Hremove & Hlist & _ & _ & _ & Hlatest & _ & Hhistory).
  exists st'. split; [exact Hremove|]. split; [exact Hlist|].
  split; [by rewrite Hhistory | by rewrite Hlatest].
Defined.

Lemma use_then_remove_witness :
  let ten := ["t1"; "t2"; "t3"; "t4"; "t5"; "t6"; "t7"; "t8"; "t9"; "t10"] in
  let st := set_previousTopics (JArray (map JString ten)) Sample.empty_app in
  exists st1 st2,
    @recordTopicUse Sample.sample_platform "new" st = Ok st1 /\
    @handleRemoveTopic Sample.sample_platform "new" st1 = Ok st2 /\
    previousTopics st2 =
      JArray (map JString ["t1"; "t2"; "t3"; "t4"; "t5"; "t6"; "t7"; "t8"; "t9"]).
Proof.
  cbv zeta.
  destruct (@use_then_remove Sample.sample_platform "new"
              (set_previousTopics
                 (JArray (map JString
                    ["t1"; "t2"; "t3"; "t4"; "t5"; "t6"; "t7"; "t8"; "t9"; "t10"]))
                 Sample.empty_app)
              ["t1"; "t2"; "t3"; "t4"; "t5"; "t6"; "t7"; "t8"; "t9"; "t10"]
              eq_refl eq_refl)
    as (st1 & st2 & Huse & Hremove & Hlist & _).
  exists st1, st2. split; [exact Huse|]. split; [exact Hremove|]. exact Hlist.
Defined.

Lemma topics_survive_reload_witness :
  let codec := codec_for [JArray [JString "alerts"]] in
  exists st',
    @recordTopicUse codec " alerts " Sample.empty_app = Ok st' /\
    initial_topic (localStorage st') = "alerts" /\
    previousTopics (@mount codec (localStorage st') "default") = JArray [JString "alerts"].
Proof.
  cbv zeta. eexists. split; [vm_compute; reflexivity|].
  match goal with
  | |- initial_topic (localStorage ?s') = _ /\ _ =>
      destruct (@topics_survive_reload (codec_for [JArray [JString "alerts"]])
                  " alerts " Sample.empty_app s' "default" eq_refl)
        as [Hlatest Hlist]; [vm_compute; reflexivity|]
  end.
  split; [exact Hlatest|]. rewrite Hlist; reflexivity.
Defined.

Lemma padded_topic_is_another_topic_witness :
  trim " alerts " <> " alerts " /\
  history_key (trim " alerts ") <> history_key " alerts " /\
  fetch_url "https://ntfy.sh" (trim " alerts ") <> fetch_url "https://ntfy.sh" " alerts ".
Proof.
  assert (Hpadded : trim " alerts " <> " alerts ") by discriminate.
  destruct (@padded_topic_is_another_topic Sample.sample_platform "https://ntfy.sh"
              " alerts " Hpadded) as (Hkey & Hurl & _).
  split; [exact Hpadded|]. split; [exact Hkey | exact Hurl].
Defined.

(* ================================================================== *)
(** * Records delivered again *)
(* ================================================================== *)

Section Replay.
Context `{Platform}.

Lemma process_lines_duplicates topic (lines : list string) (records : list JValue)
    (st : AppState) (entries : list JValue) :
  Forall2 decodes_to lines records ->
  Forall (fun r => valid_record r = true) records ->
  messages st = JArray entries ->
  Forall (fun e => readable e = true) entries ->
  Forall (fun r => Exists (fun msg =>
            strict_equals (record_id msg) (record_id r) = true) entries) records ->
  process_lines topic lines st = Ok st.
Proof.
  intros Hlines. induction Hlines as [|line r lines records Hline Hlines IH];
    intros Hvalid Hm Hentries Hheld; [reflexivity|].
  apply Forall_cons in Hvalid as [Hr Hvalid]. apply Forall_cons in Hheld as [Hdup Hheld].
  cbn [process_lines]. rewrite (process_line_valid topic line r) by assumption.
  rewrite (add_message_duplicate topic r st entries), bind_Ok; try assumption.
  - by apply IH.
  - by apply valid_record_readable.
  - apply Exists_exists in Hdup as (m & Hin & Heq). eauto.
Qed.

(** X24. Delivering again what is already held changes nothing.  When at
    most fifty valid records with pairwise distinct identifiers, each
    identifier a string, have been received into an empty history, the
    same lines processed once more return the very state they find: no
    entry is added, moved or stored again, and no notification is
    shown. *)
Theorem replay_changes_nothing topic (lines : list string) (records : list JValue)
    (st st' : AppState) :
  Forall2 decodes_to lines records ->
  Forall (fun r => valid_record r = true) records ->
  Forall (fun r => exists id, record_id r = JString id) records ->
  distinct_ids records ->
  length records <= 50 ->
  messages st = JArray [] ->
  process_lines topic lines st = Ok st' ->
  process_lines topic lines st' = Ok st'.
Proof.
  intros Hlines Hvalid Hstrings Hdist Hlen Hempty Hrun.
  rewrite (process_lines_deliver topic lines records) in Hrun by assumption.
  destruct (deliver_distinct topic records st [] Hempty) as (st1 & Hdel & Hm & _);
    try done; [cbn; lia|].
  rewrite Hrun in Hdel. injection Hdel as <-.
  rewrite app_nil_r, take_ge in Hm by (rewrite length_reverse; lia).
  apply (process_lines_duplicates topic lines records st' (reverse records));
    try assumption.
  - apply Forall_reverse. eapply Forall_impl; [exact Hvalid|].
    intros r. apply valid_record_readable.
  - apply List.Forall_forall. intros r Hr. apply Exists_exists. exists r.
    split; [apply elem_of_reverse; by apply list_elem_of_In|].
    eapply List.Forall_forall in Hstrings as [id Hid]; [|exact Hr].
    rewrite Hid. by apply strict_equals_strings.
Qed.

End Replay.

Lemma replay_changes_nothing_witness :
  let lines := [Sample.stringify (Sample.event "1" "hi");
                Sample.stringify (Sample.event "2" "ho")] in
  exists st',
    @process_lines Sample.sample_platform "alerts" lines Sample.empty_app = Ok st' /\
    messages st' = JArray [Sample.event "2" "ho"; Sample.event "1" "hi"] /\
    @process_lines Sample.sample_platform "alerts" lines st' = Ok st'.
Proof.
  cbv zeta. eexists. split; [vm_compute; reflexivity|]. split; [reflexivity|].
  apply (@replay_changes_nothing Sample.sample_platform "alerts" _
           [Sample.event "1" "hi"; Sample.event "2" "ho"] Sample.empty_app).
  - repeat constructor.
  - repeat constructor.
  - repeat constructor; eexists; reflexivity.
  - repeat constructor.
  - cbn. lia.
  - reflexivity.
  - vm_compute. reflexivity.
Defined.
